(** * The posting scheduler of [backend/services/scheduler.py]

    A shallow embedding of [IntelligentScheduler] and of the two dataclasses
    it works on, followed by the properties of the scheduling core.

    Modelling conventions.
    - A timezone-aware [datetime] is a point of the wall-clock time line of the
      configured zone, counted in microseconds since 0001-01-01T00:00:00.
      The zone is the default ["UTC"] ([RAILWAY_TIMEZONE] unset), for which
      [localize] and [astimezone] leave the wall-clock fields untouched; zones
      with daylight-saving transitions are outside the model, and so is the
      year range 1..9999 of Python's [datetime].
    - A Python [float] is a binary64 number: Rocq's primitive [float], with
      the same round-to-nearest-even arithmetic.
    - Reads of the clock ([datetime.now]) are arguments of the operations.
    - An operation that can raise returns a [result]; the [while] loop of
      [_get_next_non_sleep_time] is run with fuel. *)

From Stdlib Require Import ZArith List String Ascii Bool Lia Floats.
From Stdlib Require Import Sorted Permutation Relations DecimalString.
Import ListNotations.

Set Warnings "-inexact-float".
Local Open Scope string_scope.
Local Open Scope Z_scope.

(** ** Outcomes of fallible code *)

Inductive exception : Type :=
| ValueError          (* [time.replace] on an out-of-range field *)
| IndexError.         (* subscript of an empty list *)

Inductive result (A : Type) : Type :=
| Ok (a : A)          (* normal return *)
| Raise (e : exception)
| OutOfFuel.          (* the loop was cut before it ended *)

Arguments Ok {A} a.
Arguments Raise {A} e.
Arguments OutOfFuel {A}.

Definition bind {A B : Type} (r : result A) (k : A -> result B) : result B :=
  match r with
  | Ok a => k a
  | Raise e => Raise e
  | OutOfFuel => OutOfFuel
  end.

Notation "x <- r ;; k" := (bind r (fun x => k))
  (at level 61, r at next level, right associativity).

(** ** Dates and times *)

Definition datetime := Z.
Definition timedelta := Z.

Definition US_PER_SECOND : Z := 1000000.
Definition US_PER_MINUTE : Z := 60 * US_PER_SECOND.
Definition US_PER_HOUR : Z := 60 * US_PER_MINUTE.
Definition US_PER_DAY : Z := 24 * US_PER_HOUR.

Definition timedelta_hours (n : Z) : timedelta := n * US_PER_HOUR.

(** [dt.date()], as the proleptic Gregorian ordinal ([toordinal()]):
    0001-01-01 is day 1. Adding [timedelta(days=n)] to a date adds [n]. *)
Definition dt_date (dt : datetime) : Z := dt / US_PER_DAY + 1.

(** [date.weekday()]: [(toordinal() + 6) % 7], Monday is 0. *)
Definition date_weekday (d : Z) : Z := (d + 6) mod 7.

Definition dt_weekday (dt : datetime) : Z := date_weekday (dt_date dt).
Definition dt_hour (dt : datetime) : Z := (dt / US_PER_HOUR) mod 24.
Definition dt_minute (dt : datetime) : Z := (dt / US_PER_MINUTE) mod 60.
Definition dt_second (dt : datetime) : Z := (dt / US_PER_SECOND) mod 60.
Definition dt_microsecond (dt : datetime) : Z := dt mod US_PER_SECOND.

(** [datetime.min.time().replace(hour=h, minute=m)]: the time of day, in
    microseconds after midnight; [ValueError] when a field is out of range. *)
Definition time_replace (h m : Z) : result Z :=
  if (0 <=? h) && (h <? 24) && (0 <=? m) && (m <? 60)
  then Ok (h * US_PER_HOUR + m * US_PER_MINUTE)
  else Raise ValueError.

(** [datetime.combine(d, t)]. *)
Definition combine (d : Z) (t : Z) : datetime := (d - 1) * US_PER_DAY + t.

(** [int(dt.timestamp())]: whole seconds since 1970-01-01 (ordinal 719163),
    truncated toward zero. The seconds are taken from the exact count of
    microseconds; the rounding of [timestamp()] to a binary64 number, which
    can only show for instants centuries ahead, is not modelled. *)
Definition timestamp_int (dt : datetime) : Z :=
  Z.quot (dt - combine 719163 0) US_PER_SECOND.

(** *** Formatting *)

Definition str_of_Z (n : Z) : string := NilZero.string_of_int (Z.to_int n).

Fixpoint zeros (n : nat) : string :=
  match n with
  | O => EmptyString
  | S k => String "0" (zeros k)
  end.

Definition zfill (w : nat) (s : string) : string :=
  zeros (w - String.length s) ++ s.

(** The [%0wd] conversion ([f"{n:02d}"]): zero padding after the sign. *)
Definition fmt_0d (w : nat) (n : Z) : string :=
  if n <? 0 then "-" ++ zfill (w - 1) (str_of_Z (- n)) else zfill w (str_of_Z n).

Definition DAY_NAMES : list string :=
  ["Monday"; "Tuesday"; "Wednesday"; "Thursday"; "Friday"; "Saturday"; "Sunday"].

(** [dt.strftime('%A')]. *)
Definition strftime_A (dt : datetime) : string :=
  nth (Z.to_nat (dt_weekday dt)) DAY_NAMES "".

(** [dt.strftime('%I:%M %p')]. *)
Definition strftime_I_M_p (dt : datetime) : string :=
  let h := dt_hour dt in
  let h12 := if h mod 12 =? 0 then 12 else h mod 12 in
  fmt_0d 2 h12 ++ ":" ++ fmt_0d 2 (dt_minute dt) ++ " "
    ++ (if h <? 12 then "AM" else "PM").

Definition DAYS_IN_MONTH : list Z := [31; 28; 31; 30; 31; 30; 31; 31; 30; 31; 30; 31].

(** [_ord2ymd]: ordinal to (year, month, day), in the proleptic Gregorian
    calendar, by 400-, 100-, 4- and 1-year cycles. *)
Fixpoint month_day (leap : bool) (months : list Z) (month n : Z) : Z * Z :=
  match months with
  | [] => (month, n + 1)
  | len :: rest =>
      let len := if leap && (month =? 2) then len + 1 else len in
      if n <? len then (month, n + 1) else month_day leap rest (month + 1) (n - len)
  end.

Definition ord2ymd (ordinal : Z) : Z * Z * Z :=
  let n := ordinal - 1 in
  let n400 := n / 146097 in let n := n mod 146097 in
  let n100 := n / 36524 in let n := n mod 36524 in
  let n4 := n / 1461 in let n := n mod 1461 in
  let n1 := n / 365 in let n := n mod 365 in
  let year := n400 * 400 + 1 + n100 * 100 + n4 * 4 + n1 in
  if (n1 =? 4) || (n100 =? 4) then (year - 1, 12, 31)
  else
    let leap := (n1 =? 3) && (negb (n4 =? 24) || (n100 =? 3)) in
    let '(m, d) := month_day leap DAYS_IN_MONTH 1 n in
    (year, m, d).

(** [dt.isoformat()] of an aware datetime in UTC. *)
Definition isoformat (dt : datetime) : string :=
  let '(y, m, d) := ord2ymd (dt_date dt) in
  fmt_0d 4 y ++ "-" ++ fmt_0d 2 m ++ "-" ++ fmt_0d 2 d ++ "T"
    ++ fmt_0d 2 (dt_hour dt) ++ ":" ++ fmt_0d 2 (dt_minute dt) ++ ":"
    ++ fmt_0d 2 (dt_second dt)
    ++ (if dt_microsecond dt =? 0 then "" else "." ++ fmt_0d 6 (dt_microsecond dt))
    ++ "+00:00".

(** A wall-clock instant given by its calendar ordinal and time of day. *)
Definition mk_datetime (ordinal h m s us : Z) : datetime :=
  combine ordinal (h * US_PER_HOUR + m * US_PER_MINUTE + s * US_PER_SECOND + us).

(** ** Sorting: [list.sort(key=..., reverse=...)]

    Python's sort is stable and compares keys with [<] only. On keys that
    [<] orders totally every stable sort returns the same list, so the
    algorithm is taken to be insertion sort. With [reverse=True] the list is
    reversed, sorted, and reversed again, which keeps elements with equal
    keys in their original order. *)

Section ListSort.
Context {A K : Type} (key : A -> K) (lt : K -> K -> bool).

Fixpoint insert_sorted (x : A) (l : list A) : list A :=
  match l with
  | [] => [x]
  | y :: ys => if lt (key y) (key x) then y :: insert_sorted x ys else x :: y :: ys
  end.

Definition stable_sort (l : list A) : list A := fold_right insert_sorted [] l.

Definition list_sort (reverse : bool) (l : list A) : list A :=
  if reverse then rev (stable_sort (rev l)) else stable_sort l.

End ListSort.

(** ** Data model *)

Record OptimalTimeSlot : Type := mkOptimalTimeSlot {
  hour : Z;
  minute : Z;
  day_of_week : Z;              (* 0=Monday, 6=Sunday *)
  engagement_score : float;
  platform : string
}.

Record ScheduleEntry : Type := mkScheduleEntry {
  entry_id : string;
  content_id : string;
  entry_platform : string;
  scheduled_time : datetime;
  status : string;              (* 'pending', 'posted', 'failed' *)
  created_at : datetime
}.

Record IntelligentScheduler : Type := mkIntelligentScheduler {
  user_timezone : string;
  sleep_start : Z;
  sleep_end : Z;
  optimal_times : list OptimalTimeSlot;
  scheduled_posts : list ScheduleEntry
}.

Definition set_optimal_times (self : IntelligentScheduler)
    (slots : list OptimalTimeSlot) : IntelligentScheduler :=
  mkIntelligentScheduler (user_timezone self) (sleep_start self) (sleep_end self)
    slots (scheduled_posts self).

Definition set_scheduled_posts (self : IntelligentScheduler)
    (posts : list ScheduleEntry) : IntelligentScheduler :=
  mkIntelligentScheduler (user_timezone self) (sleep_start self) (sleep_end self)
    (optimal_times self) posts.

Definition set_engagement_score (slot : OptimalTimeSlot) (score : float)
    : OptimalTimeSlot :=
  mkOptimalTimeSlot (hour slot) (minute slot) (day_of_week slot) score (platform slot).

Definition set_status (post : ScheduleEntry) (st : string) : ScheduleEntry :=
  mkScheduleEntry (entry_id post) (content_id post) (entry_platform post)
    (scheduled_time post) st (created_at post).

(** ** [IntelligentScheduler] *)

Definition _load_default_optimal_times : list OptimalTimeSlot :=
  [ mkOptimalTimeSlot 9 0 1 0.85 "reddit";
    mkOptimalTimeSlot 14 0 2 0.82 "reddit";
    mkOptimalTimeSlot 11 0 6 0.78 "reddit";
    mkOptimalTimeSlot 20 0 4 0.88 "discord";
    mkOptimalTimeSlot 19 30 5 0.85 "discord";
    mkOptimalTimeSlot 15 0 6 0.80 "discord";
    mkOptimalTimeSlot 8 30 1 0.83 "mastodon";
    mkOptimalTimeSlot 18 0 3 0.81 "mastodon";
    mkOptimalTimeSlot 12 0 5 0.79 "mastodon" ].

(** [__init__]; the zone is fixed to the default of [os.getenv]. *)
Definition init : IntelligentScheduler :=
  mkIntelligentScheduler "UTC" 0 6 _load_default_optimal_times [].

(** The date arithmetic is that of the unbounded time line: the
    [OverflowError] of a date past 9999-12-31 is outside the model. *)
Definition _get_next_occurrence (slot : OptimalTimeSlot) (from_time : datetime)
    : result datetime :=
  let days_ahead := day_of_week slot - dt_weekday from_time in
  let days_ahead := if days_ahead <=? 0 then days_ahead + 7 else days_ahead in
  let target_date := dt_date from_time + days_ahead in
  t <- time_replace (hour slot) (minute slot) ;;
  Ok (combine target_date t).

Definition _is_sleep_time (self : IntelligentScheduler) (dt : datetime) : bool :=
  let local_hour := dt_hour dt in
  (sleep_start self <=? local_hour) && (local_hour <? sleep_end self).

(** The [while] loop of [_get_next_non_sleep_time], cut after [fuel] tests of
    its condition; the second component counts the executions of its body. *)
Fixpoint non_sleep_loop (fuel : nat) (self : IntelligentScheduler)
    (current : datetime) : result (datetime * nat) :=
  match fuel with
  | O => OutOfFuel
  | S fuel' =>
      if _is_sleep_time self current then
        r <- non_sleep_loop fuel' self (current + timedelta_hours 1) ;;
        Ok (fst r, S (snd r))
      else Ok (current, O)
  end.

Definition _get_next_non_sleep_time (fuel : nat) (self : IntelligentScheduler)
    (from_time : datetime) : result datetime :=
  r <- non_sleep_loop fuel self from_time ;;
  Ok (fst r).

(** *** [optimize_schedule] *)

(** The dictionaries of the ['optimal_schedule'] list. *)
Record ScheduleItem : Type := mkScheduleItem {
  item_platform : string;
  time : string;
  item_engagement_score : float;
  day_name : string;
  local_time : string
}.

Record OptimizedSchedule : Type := mkOptimizedSchedule {
  optimal_schedule : list ScheduleItem;
  timezone : string;
  sleep_period : string;
  next_post_time : option string
}.

Definition schedule_item (slot : OptimalTimeSlot) (next_occurrence : datetime)
    : ScheduleItem :=
  mkScheduleItem (platform slot) (isoformat next_occurrence)
    (engagement_score slot) (strftime_A next_occurrence)
    (strftime_I_M_p next_occurrence).

(** The [for slot in self.optimal_times] loop, [schedule] being the list
    built so far. *)
Fixpoint optimize_loop (self : IntelligentScheduler) (now : datetime)
    (slots : list OptimalTimeSlot) (schedule : list ScheduleItem)
    : result (list ScheduleItem) :=
  match slots with
  | [] => Ok schedule
  | slot :: rest =>
      next_occurrence <- _get_next_occurrence slot now ;;
      optimize_loop self now rest
        (if negb (_is_sleep_time self next_occurrence)
         then schedule ++ [schedule_item slot next_occurrence]
         else schedule)
  end.

Definition optimize_schedule (self : IntelligentScheduler) (now : datetime)
    : result OptimizedSchedule :=
  schedule <- optimize_loop self now (optimal_times self) [] ;;
  let schedule := list_sort item_engagement_score PrimFloat.ltb true schedule in
  Ok (mkOptimizedSchedule schedule (user_timezone self)
        (fmt_0d 2 (sleep_start self) ++ ":00 - " ++ fmt_0d 2 (sleep_end self) ++ ":00")
        (match schedule with
         | [] => None
         | first :: _ => Some (time first)
         end)).

(** *** [_find_next_optimal_slot] and [schedule_post] *)

Fixpoint find_loop (self : IntelligentScheduler) (now : datetime)
    (platform_slots : list OptimalTimeSlot) (next_slots : list (datetime * float))
    : result (list (datetime * float)) :=
  match platform_slots with
  | [] => Ok next_slots
  | slot :: rest =>
      next_time <- _get_next_occurrence slot now ;;
      find_loop self now rest
        (if negb (_is_sleep_time self next_time)
         then next_slots ++ [(next_time, engagement_score slot)]
         else next_slots)
  end.

Definition _find_next_optimal_slot (fuel : nat) (self : IntelligentScheduler)
    (target : string) (now : datetime) : result datetime :=
  let platform_slots :=
    filter (fun slot => String.eqb (platform slot) target) (optimal_times self) in
  match platform_slots with
  | [] => _get_next_non_sleep_time fuel self now
  | _ :: _ =>
      next_slots <- find_loop self now platform_slots [] ;;
      match next_slots with
      | _ :: _ =>
          match list_sort snd PrimFloat.ltb true next_slots with
          | best :: _ => Ok (fst best)
          | [] => Raise IndexError
          end
      | [] => _get_next_non_sleep_time fuel self now
      end
  end.

(** [now] is the clock read by [_find_next_optimal_slot], [created] the one
    read for [created_at]. The entry is appended to [scheduled_posts] and
    returned. *)
Definition schedule_post (fuel : nat) (self : IntelligentScheduler)
    (content target : string) (preferred_time : option datetime)
    (now created : datetime) : result (ScheduleEntry * IntelligentScheduler) :=
  scheduled <- match preferred_time with
               | Some t => Ok t
               | None => _find_next_optimal_slot fuel self target now
               end ;;
  let entry :=
    mkScheduleEntry
      (target ++ "_" ++ content ++ "_" ++ str_of_Z (timestamp_int scheduled))
      content target scheduled "pending" created in
  Ok (entry, set_scheduled_posts self (scheduled_posts self ++ [entry])).

(** *** [get_upcoming_posts] *)

(** [asdict(post)]: a dictionary with the six fields of the entry, kept as a
    copy of the record. *)
Definition asdict (post : ScheduleEntry) : ScheduleEntry :=
  mkScheduleEntry (entry_id post) (content_id post) (entry_platform post)
    (scheduled_time post) (status post) (created_at post).

(** Returns the projection and the scheduler as the call leaves it. *)
Definition get_upcoming_posts (self : IntelligentScheduler) (now : datetime)
    : list ScheduleEntry * IntelligentScheduler :=
  let upcoming :=
    filter (fun post => (now <? scheduled_time post) && String.eqb (status post) "pending")
      (scheduled_posts self) in
  let upcoming := list_sort scheduled_time Z.ltb false upcoming in
  (map asdict (firstn 10 upcoming), self).

(** *** [process_scheduled_posts] *)

(** [publish post] tells whether the [try] block that hands [post] over for
    posting completes ([true]) or raises ([false]). The handler is taken to
    complete; the sweep in which the [print] of the handler raises as well
    is [process_scheduled_posts_exc] below. *)
Definition process_post (self : IntelligentScheduler) (now : datetime)
    (publish : ScheduleEntry -> bool) (post : ScheduleEntry) : ScheduleEntry :=
  if String.eqb (status post) "pending"
     && (scheduled_time post <=? now)
     && negb (_is_sleep_time self now)
  then if publish post then set_status post "posted" else set_status post "failed"
  else post.

Definition process_scheduled_posts (self : IntelligentScheduler) (now : datetime)
    (publish : ScheduleEntry -> bool) : IntelligentScheduler :=
  set_scheduled_posts self (map (process_post self now publish) (scheduled_posts self)).

(** *** [update_engagement_data] *)

Definition slot_matches (target : string) (day hour_ : Z) (slot : OptimalTimeSlot)
    : bool :=
  String.eqb (platform slot) target
  && (day_of_week slot =? day)
  && (Z.abs (hour slot - hour_) <=? 1).

(** Position of [existing_slot] in the catalog: the first slot that matches,
    where the loop breaks. *)
Fixpoint find_existing_slot (target : string) (day hour_ : Z)
    (slots : list OptimalTimeSlot) : option nat :=
  match slots with
  | [] => None
  | slot :: rest =>
      if slot_matches target day hour_ slot then Some O
      else option_map S (find_existing_slot target day hour_ rest)
  end.

(** Assignment through the reference held in [existing_slot]. *)
Fixpoint update_slot (i : nat) (f : OptimalTimeSlot -> OptimalTimeSlot)
    (slots : list OptimalTimeSlot) : list OptimalTimeSlot :=
  match slots, i with
  | [], _ => []
  | slot :: rest, O => f slot :: rest
  | slot :: rest, S j => slot :: update_slot j f rest
  end.

Definition blend (observed : float) (slot : OptimalTimeSlot) : OptimalTimeSlot :=
  set_engagement_score slot (engagement_score slot * 0.8 + observed * 0.2)%float.

Definition update_engagement_data (self : IntelligentScheduler) (target : string)
    (post_time : datetime) (score : float) : IntelligentScheduler :=
  let day := dt_weekday post_time in
  let hour_ := dt_hour post_time in
  match find_existing_slot target day hour_ (optimal_times self) with
  | Some i => set_optimal_times self (update_slot i (blend score) (optimal_times self))
  | None =>
      if (0.75 <? score)%float
      then set_optimal_times self
             (optimal_times self ++ [mkOptimalTimeSlot hour_ 0 day score target])
      else self
  end.

(** *** [get_sleep_schedule] *)

Definition timedelta_days (n : Z) : timedelta := n * US_PER_DAY.

Record SleepSchedule : Type := mkSleepSchedule {
  ss_timezone : string;
  ss_sleep_start : string;
  ss_sleep_end : string;
  next_sleep_time : string;
  next_wake_time : string;
  currently_sleeping : bool;
  active_hours : string
}.

(** The instants [next_sleep] and [next_wake] of [get_sleep_schedule]:
    today's date at the hours [sleep_start] and [sleep_end], both moved to
    tomorrow when the hour of [now] has reached [sleep_start]. *)
Definition next_sleep_wake (self : IntelligentScheduler) (now : datetime)
    : result (datetime * datetime) :=
  let today := dt_date now in
  sleep_at <- time_replace (sleep_start self) 0 ;;
  let next_sleep := combine today sleep_at in
  wake_at <- time_replace (sleep_end self) 0 ;;
  let next_wake := combine today wake_at in
  if sleep_start self <=? dt_hour now
  then Ok (next_sleep + timedelta_days 1, next_wake + timedelta_days 1)
  else Ok (next_sleep, next_wake).

Definition get_sleep_schedule (self : IntelligentScheduler) (now : datetime)
    : result SleepSchedule :=
  times <- next_sleep_wake self now ;;
  Ok (mkSleepSchedule (user_timezone self)
        (fmt_0d 2 (sleep_start self) ++ ":00")
        (fmt_0d 2 (sleep_end self) ++ ":00")
        (isoformat (fst times))
        (isoformat (snd times))
        (_is_sleep_time self now)
        (fmt_0d 2 (sleep_end self) ++ ":00 - " ++ fmt_0d 2 (sleep_start self) ++ ":00")).

(** *** [process_scheduled_posts], with the exception that leaves it *)

(** What happens in the [try] statement for a due post. *)
Inductive attempt : Type :=
| Posted            (* the [try] block completes *)
| Failed            (* the [try] block raises, the handler completes *)
| HandlerRaised.    (* the [try] block raises, and so does the [print] of the handler *)

(** The condition of the [if] in the loop of the sweep. *)
Definition is_due (self : IntelligentScheduler) (now : datetime) (post : ScheduleEntry)
    : bool :=
  String.eqb (status post) "pending"
  && (scheduled_time post <=? now)
  && negb (_is_sleep_time self now).

(** The [for post in self.scheduled_posts] loop. The handler prints before
    it assigns ['failed']: when that [print] raises, the exception leaves
    the loop with this entry and the following ones as they were. The
    second component tells whether the sweep ended so. *)
Fixpoint sweep_loop (self : IntelligentScheduler) (now : datetime)
    (outcome : ScheduleEntry -> attempt) (posts : list ScheduleEntry)
    : list ScheduleEntry * bool :=
  match posts with
  | [] => ([], false)
  | post :: rest =>
      if is_due self now post then
        match outcome post with
        | Posted =>
            let r := sweep_loop self now outcome rest in
            (set_status post "posted" :: fst r, snd r)
        | Failed =>
            let r := sweep_loop self now outcome rest in
            (set_status post "failed" :: fst r, snd r)
        | HandlerRaised => (post :: rest, true)
        end
      else
        let r := sweep_loop self now outcome rest in
        (post :: fst r, snd r)
  end.

(** The scheduler after the sweep, and whether the sweep raised. *)
Definition process_scheduled_posts_exc (self : IntelligentScheduler) (now : datetime)
    (outcome : ScheduleEntry -> attempt) : IntelligentScheduler * bool :=
  let r := sweep_loop self now outcome (scheduled_posts self) in
  (set_scheduled_posts self (fst r), snd r).

(** ** The scheduler as a transition system *)

Inductive operation : Type :=
| OptimizeSchedule (now : datetime)
| SchedulePost (fuel : nat) (content target : string)
    (preferred_time : option datetime) (now created : datetime)
| GetUpcomingPosts (now : datetime)
| ProcessScheduledPosts (now : datetime) (publish : ScheduleEntry -> bool)
| UpdateEngagementData (target : string) (post_time : datetime) (score : float).

(** The scheduler after an operation; an operation that raises leaves it
    as it was. *)
Definition run (self : IntelligentScheduler) (op : operation) : IntelligentScheduler :=
  match op with
  | OptimizeSchedule now => self
  | SchedulePost fuel content target preferred_time now created =>
      match schedule_post fuel self content target preferred_time now created with
      | Ok (_, self') => self'
      | _ => self
      end
  | GetUpcomingPosts now => snd (get_upcoming_posts self now)
  | ProcessScheduledPosts now publish => process_scheduled_posts self now publish
  | UpdateEngagementData target post_time score =>
      update_engagement_data self target post_time score
  end.

Definition run_all (self : IntelligentScheduler) (ops : list operation)
    : IntelligentScheduler :=
  fold_left run ops self.

(** ** Vocabulary of the properties *)

(** The field ranges of the data model: the slots [time.replace] accepts,
    on a weekday of the week. *)
Definition valid_slot (slot : OptimalTimeSlot) : Prop :=
  0 <= hour slot < 24 /\ 0 <= minute slot < 60 /\ 0 <= day_of_week slot <= 6.

(** A slot answers an engagement update for [target] posted at [post_time]. *)
Definition matches (target : string) (post_time : datetime) (slot : OptimalTimeSlot)
    : Prop :=
  platform slot = target
  /\ day_of_week slot = dt_weekday post_time
  /\ Z.abs (hour slot - dt_hour post_time) <= 1.

(** The sleep window as the specification words it: half-open, empty when
    both ends coincide, wrapping past midnight when the start is the later
    end. *)
Definition in_sleep_window_spec (start stop h : Z) : bool :=
  if start =? stop then false
  else if start <? stop then (start <=? h) && (h <? stop)
  else (start <=? h) || (h <? stop).

(** The slots whose next occurrence is kept by the sleep filter, in catalog
    order, each with that occurrence. *)
Definition survivors (self : IntelligentScheduler) (now : datetime)
    (slots : list OptimalTimeSlot) : list (OptimalTimeSlot * datetime) :=
  flat_map
    (fun slot =>
       match _get_next_occurrence slot now with
       | Ok next_occurrence =>
           if _is_sleep_time self next_occurrence then [] else [(slot, next_occurrence)]
       | _ => []
       end)
    slots.

(** The entries the upcoming-posts projection selects from. *)
Definition is_upcoming (now : datetime) (post : ScheduleEntry) : bool :=
  (now <? scheduled_time post) && String.eqb (status post) "pending".

(** Scenario data: Tuesday 2024-01-02, whose ordinal is 738887. *)
Definition tuesday_0800 : datetime := mk_datetime 738887 8 0 0 0.
Definition tuesday_0900 : datetime := mk_datetime 738887 9 0 0 0.
Definition next_tuesday_0900 : datetime := mk_datetime 738894 9 0 0 0.
Definition reddit_tuesday_9am : OptimalTimeSlot := mkOptimalTimeSlot 9 0 1 0.85 "reddit".

(** Tuesday 2024-01-02 at 02:15:03, inside the default window. *)
Definition tuesday_0215 : datetime := mk_datetime 738887 2 15 3 9.

(** A scheduler whose window starts in the evening and ends in the morning. *)
Definition night_window : IntelligentScheduler :=
  mkIntelligentScheduler "UTC" 22 6 _load_default_optimal_times [].

(** The dictionary [optimize_schedule] builds for a surviving slot. *)
Definition survivor_item (p : OptimalTimeSlot * datetime) : ScheduleItem :=
  schedule_item (fst p) (snd p).

(** What may become of a schedule entry: nothing, or its status going from
    pending to posted or to failed. *)
Definition evolves (post post' : ScheduleEntry) : Prop :=
  post' = post
  \/ (status post = "pending"
      /\ (post' = set_status post "posted" \/ post' = set_status post "failed")).

(** A catalog with one slot, Tuesday 09:00 for reddit, scored 0.80. *)
Definition one_slot : IntelligentScheduler :=
  mkIntelligentScheduler "UTC" 0 6 [mkOptimalTimeSlot 9 0 1 0.80 "reddit"] [].

(** The slots of the platform that survive the sleep filter, as the pairs
    [_find_next_optimal_slot] collects. *)
Definition platform_survivors (self : IntelligentScheduler) (target : string)
    (now : datetime) : list (OptimalTimeSlot * datetime) :=
  survivors self now
    (filter (fun slot => String.eqb (platform slot) target) (optimal_times self)).

(** Tuesday 2024-01-02 at 07:30. *)
Definition tuesday_0730 : datetime := mk_datetime 738887 7 30 0 0.

(** A run of engagement updates for one platform and one post time, one
    call of [update_engagement_data] for each observed score. *)
Definition update_many (self : IntelligentScheduler) (target : string)
    (post_time : datetime) (scores : list float) : IntelligentScheduler :=
  fold_left (fun s score => update_engagement_data s target post_time score) scores self.


(** Wednesday 2024-01-03 at 14:00 and Sunday 2024-01-07 at 11:00. *)
Definition wednesday_1400 : datetime := mk_datetime 738888 14 0 0 0.
Definition sunday_1100 : datetime := mk_datetime 738892 11 0 0 0.

(** The default scheduler after two engagement updates whose observed score
    is not a number. *)
Definition after_nan_updates : IntelligentScheduler :=
  run_all init
    [ UpdateEngagementData "reddit" wednesday_1400 nan;
      UpdateEngagementData "reddit" sunday_1100 nan ].

(** A scheduler with two entries due at 07:30 on Tuesday 2024-01-02. *)
Definition two_due_posts : IntelligentScheduler :=
  set_scheduled_posts init
    [ mkScheduleEntry "reddit_a_1704177000" "a" "reddit" tuesday_0730 "pending" tuesday_0215;
      mkScheduleEntry "discord_b_1704177000" "b" "discord" tuesday_0730 "pending" tuesday_0215 ].

(** * Properties *)

(** ** Calendar arithmetic *)

Example isoformat_2024_01_02 :
  isoformat (mk_datetime 738887 8 0 0 0) = "2024-01-02T08:00:00+00:00"
  /\ strftime_A (mk_datetime 738887 8 0 0 0) = "Tuesday"
  /\ strftime_I_M_p (mk_datetime 738887 8 0 0 0) = "08:00 AM"
  /\ timestamp_int (mk_datetime 738887 8 0 0 0) = 1704182400.
Proof. vm_compute. repeat split. Qed.

Example isoformat_leap_day :
  isoformat (mk_datetime 738945 0 5 7 12) = "2024-02-29T00:05:07.000012+00:00"
  /\ strftime_I_M_p (mk_datetime 738945 0 5 7 12) = "12:05 AM"
  /\ ord2ymd 738885 = (2023, 12, 31)
  /\ ord2ymd 730485 = (2000, 12, 31)
  /\ ord2ymd 693655 = (1900, 3, 1).
Proof. vm_compute. repeat split. Qed.

Lemma dt_hour_range (dt : datetime) : 0 <= dt_hour dt < 24.
Proof. unfold dt_hour. apply Z.mod_pos_bound. lia. Qed.

Lemma dt_weekday_range (dt : datetime) : 0 <= dt_weekday dt <= 6.
Proof.
  unfold dt_weekday, date_weekday.
  pose proof (Z.mod_pos_bound (dt_date dt + 6) 7). lia.
Qed.

Ltac unfold_time :=
  unfold mk_datetime, combine, dt_weekday, date_weekday, dt_date, dt_hour, dt_minute,
    dt_second, dt_microsecond, timedelta_hours, US_PER_DAY, US_PER_HOUR,
    US_PER_MINUTE, US_PER_SECOND in *.

(** The fields of a combined date and time of day. *)
Lemma combine_fields (d h m : Z) :
  0 <= h < 24 -> 0 <= m < 60 ->
  let dt := combine d (h * US_PER_HOUR + m * US_PER_MINUTE) in
  dt_date dt = d /\ dt_hour dt = h /\ dt_minute dt = m
  /\ dt_second dt = 0 /\ dt_microsecond dt = 0.
Proof.
  intros Hh Hm. unfold_time. cbv zeta.
  repeat split; Z.div_mod_to_equations; lia.
Qed.

Lemma time_replace_ok (h m : Z) :
  0 <= h < 24 -> 0 <= m < 60 ->
  time_replace h m = Ok (h * US_PER_HOUR + m * US_PER_MINUTE).
Proof.
  intros Hh Hm. unfold time_replace.
  replace ((0 <=? h) && (h <? 24) && (0 <=? m) && (m <? 60)) with true; [reflexivity|].
  symmetry. repeat (apply andb_true_intro; split); lia.
Qed.

(** *** What [_get_next_occurrence] does return: an instant on one of the
    next seven days, after the query instant, with the fields of the slot. *)
Lemma next_occurrence_fields (slot : OptimalTimeSlot) (now : datetime) :
  valid_slot slot ->
  exists occ,
    _get_next_occurrence slot now = Ok occ
    /\ now < occ
    /\ dt_weekday occ = day_of_week slot
    /\ dt_hour occ = hour slot
    /\ dt_minute occ = minute slot
    /\ dt_second occ = 0
    /\ 1 <= dt_date occ - dt_date now <= 7.
Proof.
  intros (Hh & Hm & Hd). unfold _get_next_occurrence.
  rewrite (time_replace_ok _ _ Hh Hm). cbn [bind].
  eexists. split; [reflexivity|].
  pose proof (dt_weekday_range now) as Hw.
  set (ahead := if day_of_week slot - dt_weekday now <=? 0
                then day_of_week slot - dt_weekday now + 7
                else day_of_week slot - dt_weekday now).
  assert (Hahead : 1 <= ahead <= 7
                   /\ (ahead = day_of_week slot - dt_weekday now
                       \/ ahead = day_of_week slot - dt_weekday now + 7)).
  { subst ahead. destruct (Z.leb_spec (day_of_week slot - dt_weekday now) 0); lia. }
  destruct (combine_fields (dt_date now + ahead) _ _ Hh Hm) as (Hdate & Hhour & Hmin & Hsec & _).
  cbv zeta in *. rewrite Hdate, Hhour, Hmin, Hsec.
  repeat split; try lia.
  - unfold_time. Z.div_mod_to_equations. lia.
  - unfold dt_weekday. rewrite Hdate.
    unfold dt_weekday in Hahead, Hw. unfold date_weekday in *.
    Z.div_mod_to_equations. lia.
Qed.

(** C1 (the code departs from the claim). On Tuesday 2024-01-02 at 08:00 the
    Tuesday 09:00 slot of the default catalog still has an occurrence later
    the same day, with the weekday, hour and minute of the slot and
    strictly after the query instant; [_get_next_occurrence] returns the
    occurrence of the following Tuesday instead. *)
Theorem next_occurrence_skips_later_today :
  In reddit_tuesday_9am (optimal_times init)
  /\ _get_next_occurrence reddit_tuesday_9am tuesday_0800 = Ok next_tuesday_0900
  /\ tuesday_0800 < tuesday_0900 < next_tuesday_0900
  /\ dt_weekday tuesday_0900 = day_of_week reddit_tuesday_9am
  /\ dt_hour tuesday_0900 = hour reddit_tuesday_9am
  /\ dt_minute tuesday_0900 = minute reddit_tuesday_9am
  /\ dt_date tuesday_0900 = dt_date tuesday_0800
  /\ dt_date next_tuesday_0900 = dt_date tuesday_0800 + 7.
Proof.
  split; [left; reflexivity|].
  split; [vm_compute; reflexivity|].
  vm_compute. repeat split; congruence.
Qed.

(** A slot of today's weekday is always sent a week ahead, whatever its
    time of day. *)
Lemma next_occurrence_same_weekday (slot : OptimalTimeSlot) (now occ : datetime) :
  day_of_week slot = dt_weekday now ->
  _get_next_occurrence slot now = Ok occ ->
  dt_date occ = dt_date now + 7.
Proof.
  intros Hd. unfold _get_next_occurrence, time_replace.
  destruct ((0 <=? hour slot) && (hour slot <? 24) && (0 <=? minute slot)
            && (minute slot <? 60)) eqn:Hrange; cbn [bind]; [|discriminate].
  intros [= <-]. rewrite Hd, Z.sub_diag. cbn [Z.leb Z.compare].
  apply andb_prop in Hrange as [Hrange Hm2]. apply andb_prop in Hrange as [Hrange Hm1].
  apply andb_prop in Hrange as [Hh1 Hh2].
  apply (combine_fields (dt_date now + (0 + 7)) (hour slot) (minute slot)); lia.
Qed.

(** ** The sleep window *)

(** C2, counterexample. With the window from 22 to 6, an instant at 23:00 is
    inside the wrapping window the claim describes, and outside the window
    of [_is_sleep_time]. *)
Lemma sleep_window_does_not_wrap :
  _is_sleep_time night_window (mk_datetime 738887 23 0 0 0) = false
  /\ in_sleep_window_spec (sleep_start night_window) (sleep_end night_window)
       (dt_hour (mk_datetime 738887 23 0 0 0)) = true.
Proof. split; vm_compute; reflexivity. Qed.

(** C2, amended. [_is_sleep_time] holds exactly when the local hour lies in
    the half-open interval from [sleep_start] to [sleep_end]; the window is
    empty when the two ends coincide and also when [sleep_start] is the
    later one (no wrap past midnight). It agrees with the window of the
    specification whenever [sleep_start <= sleep_end]. *)
Theorem is_sleep_time_half_open (self : IntelligentScheduler) (dt : datetime) :
  (_is_sleep_time self dt = true <-> sleep_start self <= dt_hour dt < sleep_end self)
  /\ (sleep_start self = sleep_end self -> _is_sleep_time self dt = false)
  /\ (sleep_start self > sleep_end self -> _is_sleep_time self dt = false)
  /\ (sleep_start self <= sleep_end self ->
      _is_sleep_time self dt
      = in_sleep_window_spec (sleep_start self) (sleep_end self) (dt_hour dt)).
Proof.
  unfold _is_sleep_time, in_sleep_window_spec. cbv zeta.
  destruct (Z.leb_spec (sleep_start self) (dt_hour dt));
    destruct (Z.ltb_spec (dt_hour dt) (sleep_end self));
    destruct (Z.eqb_spec (sleep_start self) (sleep_end self));
    destruct (Z.ltb_spec (sleep_start self) (sleep_end self));
    cbn [andb orb]; repeat split; intros; try reflexivity; try discriminate; lia.
Qed.

Lemma is_sleep_time_iff (self : IntelligentScheduler) (dt : datetime) :
  _is_sleep_time self dt = true <-> sleep_start self <= dt_hour dt < sleep_end self.
Proof.
  unfold _is_sleep_time. cbv zeta. rewrite andb_true_iff, Z.leb_le, Z.ltb_lt. tauto.
Qed.

(** ** The walk to the next hour outside the sleep window *)

Lemma dt_hour_shift (t : datetime) (k : Z) :
  dt_hour (t + timedelta_hours k) = (dt_hour t + k) mod 24.
Proof.
  unfold dt_hour, timedelta_hours.
  rewrite Z.div_add by (unfold_time; lia).
  rewrite Z.add_mod_idemp_l by lia. reflexivity.
Qed.

Lemma timedelta_hours_succ (t : datetime) (i : nat) :
  t + timedelta_hours 1 + timedelta_hours (Z.of_nat i)
  = t + timedelta_hours (Z.of_nat (S i)).
Proof. unfold timedelta_hours. lia. Qed.

(** The loop stops at the first hour step that is outside the window, after
    as many executions of its body. *)
Lemma non_sleep_loop_first (self : IntelligentScheduler) (k : nat) :
  forall (t : datetime) (fuel : nat),
    (k < fuel)%nat ->
    (forall i, (i < k)%nat -> _is_sleep_time self (t + timedelta_hours (Z.of_nat i)) = true) ->
    _is_sleep_time self (t + timedelta_hours (Z.of_nat k)) = false ->
    non_sleep_loop fuel self t = Ok (t + timedelta_hours (Z.of_nat k), k).
Proof.
  induction k as [|k IH]; intros t fuel Hfuel Hbefore Hstop.
  - destruct fuel as [|fuel]; [lia|]. cbn [non_sleep_loop].
    replace (t + timedelta_hours (Z.of_nat 0)) with t in * by (unfold timedelta_hours; lia).
    rewrite Hstop. reflexivity.
  - destruct fuel as [|fuel]; [lia|]. cbn [non_sleep_loop].
    pose proof (Hbefore O ltac:(lia)) as H0.
    replace (t + timedelta_hours (Z.of_nat 0)) with t in H0 by (unfold timedelta_hours; lia).
    rewrite H0.
    rewrite (IH (t + timedelta_hours 1) fuel).
    + cbn [bind fst snd]. rewrite timedelta_hours_succ. reflexivity.
    + lia.
    + intros i Hi. rewrite timedelta_hours_succ. apply Hbefore. lia.
    + rewrite timedelta_hours_succ. exact Hstop.
Qed.

(** Among [n] consecutive hour steps one of which is outside the window,
    there is a first one. *)
Lemma first_awake_step (self : IntelligentScheduler) (n : nat) :
  forall t : datetime,
    (exists j, (j < n)%nat /\ _is_sleep_time self (t + timedelta_hours (Z.of_nat j)) = false) ->
    exists k, (k < n)%nat
      /\ (forall i, (i < k)%nat -> _is_sleep_time self (t + timedelta_hours (Z.of_nat i)) = true)
      /\ _is_sleep_time self (t + timedelta_hours (Z.of_nat k)) = false.
Proof.
  induction n as [|n IH]; intros t (j & Hj & Hawake); [lia|].
  destruct (_is_sleep_time self (t + timedelta_hours (Z.of_nat 0))) eqn:H0.
  - destruct j as [|j]; [congruence|].
    destruct (IH (t + timedelta_hours 1)) as (k & Hk & Hbefore & Hstop).
    { exists j. split; [lia|]. rewrite timedelta_hours_succ. exact Hawake. }
    exists (S k). split; [lia|]. split.
    + intros [|i] Hi; [exact H0|]. rewrite <- timedelta_hours_succ. apply Hbefore. lia.
    + rewrite <- timedelta_hours_succ. exact Hstop.
  - exists O. split; [lia|]. split; [intros i Hi; lia | exact H0].
Qed.

(** An hour of the day outside the window is met within 24 hour steps. *)
Lemma awake_within_a_day (self : IntelligentScheduler) (t : datetime) (h : Z) :
  0 <= h < 24 -> ~ (sleep_start self <= h < sleep_end self) ->
  exists j, (j < 24)%nat /\ _is_sleep_time self (t + timedelta_hours (Z.of_nat j)) = false.
Proof.
  intros Hh Hout. pose proof (dt_hour_range t) as Ht.
  exists (Z.to_nat ((h - dt_hour t) mod 24)).
  pose proof (Z.mod_pos_bound (h - dt_hour t) 24 ltac:(lia)) as Hm.
  split; [lia|].
  apply not_true_is_false. rewrite is_sleep_time_iff, dt_hour_shift.
  rewrite Z2Nat.id by lia.
  replace ((dt_hour t + (h - dt_hour t) mod 24) mod 24) with h; [exact Hout|].
  rewrite Z.add_mod_idemp_r by lia.
  replace (dt_hour t + (h - dt_hour t)) with h by lia.
  symmetry. apply Z.mod_small. lia.
Qed.

(** When the window covers every hour of the day, no amount of fuel lets
    the loop end. *)
Lemma non_sleep_loop_diverges (self : IntelligentScheduler) (fuel : nat) :
  forall t : datetime,
    sleep_start self <= 0 -> 24 <= sleep_end self ->
    non_sleep_loop fuel self t = OutOfFuel.
Proof.
  induction fuel as [|fuel IH]; intros t Hs He; [reflexivity|].
  cbn [non_sleep_loop].
  pose proof (dt_hour_range t) as Ht.
  replace (_is_sleep_time self t) with true
    by (symmetry; apply is_sleep_time_iff; lia).
  rewrite IH by assumption. reflexivity.
Qed.

Lemma find_loop_all_asleep (self : IntelligentScheduler) (now : datetime)
    (slots : list OptimalTimeSlot) :
  forall next_slots,
    (forall slot, In slot slots ->
       exists occ, _get_next_occurrence slot now = Ok occ /\ _is_sleep_time self occ = true) ->
    find_loop self now slots next_slots = Ok next_slots.
Proof.
  induction slots as [|slot rest IH]; intros next_slots Hall; [reflexivity|].
  cbn [find_loop].
  destruct (Hall slot (or_introl eq_refl)) as (occ & Hocc & Hsleep).
  rewrite Hocc. cbn [bind]. rewrite Hsleep. cbn [negb].
  apply IH. intros s Hs. apply Hall. right. exact Hs.
Qed.

(** Without a surviving slot for the platform the optimal-slot search is
    the walk to the next hour outside the window. *)
Lemma find_next_optimal_slot_fallback (fuel : nat) (self : IntelligentScheduler)
    (target : string) (now : datetime) :
  (forall slot, In slot (optimal_times self) -> platform slot = target ->
     exists occ, _get_next_occurrence slot now = Ok occ /\ _is_sleep_time self occ = true) ->
  _find_next_optimal_slot fuel self target now = _get_next_non_sleep_time fuel self now.
Proof.
  intros Hall. unfold _find_next_optimal_slot. cbv zeta.
  destruct (filter (fun slot => String.eqb (platform slot) target) (optimal_times self))
    as [|slot rest] eqn:Hfilter; [reflexivity|].
  rewrite find_loop_all_asleep; [reflexivity|].
  intros s Hs. rewrite <- Hfilter in Hs. apply filter_In in Hs as [Hin Heq].
  apply Hall; [exact Hin|]. apply String.eqb_eq. exact Heq.
Qed.

(** C5. Provided some hour of the day lies outside the sleep window (as
    with the window from 0 to 6 that [__init__] sets), scheduling without a
    preferred time for a platform none of whose slots survives the sleep
    filter walks forward from now one hour at a time: the loop body runs
    [k] times, [k < 24], every earlier step being inside the window; the
    search returns [now] plus [k] hours, an instant outside the window and
    less than 24 hours away; and [schedule_post] returns a pending entry
    for that instant. Fuel 24 is always enough. *)
Theorem fallback_next_non_sleep_hour (self : IntelligentScheduler)
    (content target : string) (now created : datetime) :
  (exists h, 0 <= h < 24 /\ ~ (sleep_start self <= h < sleep_end self)) ->
  (forall slot, In slot (optimal_times self) -> platform slot = target ->
     exists occ, _get_next_occurrence slot now = Ok occ /\ _is_sleep_time self occ = true) ->
  exists k : nat,
    (k < 24)%nat
    /\ (forall i, (i < k)%nat ->
          _is_sleep_time self (now + timedelta_hours (Z.of_nat i)) = true)
    /\ _is_sleep_time self (now + timedelta_hours (Z.of_nat k)) = false
    /\ now <= now + timedelta_hours (Z.of_nat k) < now + timedelta_hours 24
    /\ forall fuel, (k < fuel)%nat ->
         non_sleep_loop fuel self now = Ok (now + timedelta_hours (Z.of_nat k), k)
         /\ _find_next_optimal_slot fuel self target now
            = Ok (now + timedelta_hours (Z.of_nat k))
         /\ exists entry,
              schedule_post fuel self content target None now created
              = Ok (entry, set_scheduled_posts self (scheduled_posts self ++ [entry]))
              /\ scheduled_time entry = now + timedelta_hours (Z.of_nat k)
              /\ status entry = "pending".
Proof.
  intros (h & Hh & Hout) Hnone.
  destruct (awake_within_a_day self now h Hh Hout) as (j & Hj & Hawake).
  destruct (first_awake_step self 24 now) as (k & Hk & Hbefore & Hstop).
  { exists j. split; assumption. }
  exists k. repeat split; try assumption.
  - unfold timedelta_hours, US_PER_HOUR, US_PER_MINUTE, US_PER_SECOND. lia.
  - unfold timedelta_hours, US_PER_HOUR, US_PER_MINUTE, US_PER_SECOND. lia.
  - apply non_sleep_loop_first; assumption.
  - rewrite find_next_optimal_slot_fallback by exact Hnone.
    unfold _get_next_non_sleep_time.
    rewrite (non_sleep_loop_first self k now fuel) by assumption. reflexivity.
  - unfold schedule_post.
    rewrite find_next_optimal_slot_fallback by exact Hnone.
    unfold _get_next_non_sleep_time.
    rewrite (non_sleep_loop_first self k now fuel) by assumption.
    cbn [bind fst]. eexists. split; [reflexivity|]. split; reflexivity.
Qed.

Lemma fallback_next_non_sleep_hour_witness :
  exists k : nat,
    (k < 24)%nat
    /\ (forall i, (i < k)%nat ->
          _is_sleep_time init (tuesday_0215 + timedelta_hours (Z.of_nat i)) = true)
    /\ _is_sleep_time init (tuesday_0215 + timedelta_hours (Z.of_nat k)) = false
    /\ tuesday_0215 <= tuesday_0215 + timedelta_hours (Z.of_nat k)
       < tuesday_0215 + timedelta_hours 24
    /\ forall fuel, (k < fuel)%nat ->
         non_sleep_loop fuel init tuesday_0215
         = Ok (tuesday_0215 + timedelta_hours (Z.of_nat k), k)
         /\ _find_next_optimal_slot fuel init "twitter" tuesday_0215
            = Ok (tuesday_0215 + timedelta_hours (Z.of_nat k))
         /\ exists entry,
              schedule_post fuel init "post-1" "twitter" None tuesday_0215 tuesday_0215
              = Ok (entry, set_scheduled_posts init (scheduled_posts init ++ [entry]))
              /\ scheduled_time entry = tuesday_0215 + timedelta_hours (Z.of_nat k)
              /\ status entry = "pending".
Proof.
  apply (fallback_next_non_sleep_hour init "post-1" "twitter" tuesday_0215 tuesday_0215).
  - exists 6. simpl. lia.
  - intros slot Hin Hplatform. simpl in Hin.
    repeat (destruct Hin as [<- | Hin]; [discriminate Hplatform|]).
    destruct Hin.
Defined.

(** ** Stable sorting *)

Lemma StronglySorted_app {A : Type} (R : A -> A -> Prop) (l1 l2 : list A) :
  StronglySorted R l1 -> StronglySorted R l2 ->
  (forall a b, In a l1 -> In b l2 -> R a b) ->
  StronglySorted R (l1 ++ l2).
Proof.
  induction l1 as [|x l1 IH]; intros H1 H2 Hcross; [exact H2|].
  apply StronglySorted_inv in H1 as [Hs Hx].
  cbn [app]. constructor.
  - apply IH; [exact Hs | exact H2 |]. intros a b Ha Hb. apply Hcross; [right|]; assumption.
  - apply Forall_app. split; [exact Hx|].
    apply Forall_forall. intros b Hb. apply Hcross; [left; reflexivity | exact Hb].
Qed.

Lemma StronglySorted_app_cross {A : Type} (R : A -> A -> Prop) (l1 l2 : list A) :
  StronglySorted R (l1 ++ l2) -> forall a b, In a l1 -> In b l2 -> R a b.
Proof.
  induction l1 as [|x l1 IH]; intros Hs a b Ha Hb; [destruct Ha|].
  cbn [app] in Hs. apply StronglySorted_inv in Hs as [Hs Hx].
  destruct Ha as [<- | Ha].
  - rewrite Forall_forall in Hx. apply Hx. apply in_or_app. right. exact Hb.
  - apply IH; assumption.
Qed.

Lemma StronglySorted_rev {A : Type} (R : A -> A -> Prop) (l : list A) :
  StronglySorted R l -> StronglySorted (fun a b => R b a) (rev l).
Proof.
  induction 1 as [|x l Hs IH Hx]; [constructor|].
  cbn [rev]. apply StronglySorted_app.
  - exact IH.
  - repeat constructor.
  - intros a b Ha [<- | []]. rewrite Forall_forall in Hx. apply Hx.
    apply in_rev. exact Ha.
Qed.

Section StableSortFacts.
Context {A K : Type} (key : A -> K) (lt : K -> K -> bool) (ok : K -> Prop).
Hypothesis lt_asym : forall a b, lt a b = true -> lt b a = false.
Hypothesis lt_negtrans :
  forall a b c, ok b -> lt a b = false -> lt b c = false -> lt a c = false.

Lemma insert_sorted_perm (x : A) (l : list A) :
  Permutation (x :: l) (insert_sorted key lt x l).
Proof.
  induction l as [|y ys IH]; cbn [insert_sorted]; [reflexivity|].
  destruct (lt (key y) (key x)); [|reflexivity].
  rewrite perm_swap. constructor. exact IH.
Qed.

Lemma stable_sort_perm (l : list A) : Permutation l (stable_sort key lt l).
Proof.
  induction l as [|x l IH]; cbn [stable_sort fold_right]; [constructor|].
  rewrite <- insert_sorted_perm. constructor. exact IH.
Qed.

Lemma list_sort_perm (reverse : bool) (l : list A) :
  Permutation l (list_sort key lt reverse l).
Proof.
  unfold list_sort. destruct reverse.
  - rewrite <- Permutation_rev, <- stable_sort_perm. apply Permutation_rev.
  - apply stable_sort_perm.
Qed.

Lemma insert_sorted_sorted (x : A) (l : list A) :
  Forall (fun y => ok (key y)) l ->
  StronglySorted (fun a b => lt (key b) (key a) = false) l ->
  StronglySorted (fun a b => lt (key b) (key a) = false) (insert_sorted key lt x l).
Proof.
  induction l as [|y ys IH]; intros Hok Hs; cbn [insert_sorted].
  - repeat constructor.
  - apply StronglySorted_inv in Hs as [Hs Hy].
    pose proof (Forall_inv Hok) as Hoky. pose proof (Forall_inv_tail Hok) as Hoks.
    destruct (lt (key y) (key x)) eqn:Hyx.
    + constructor; [apply IH; assumption|].
      apply (Permutation_Forall (insert_sorted_perm x ys)).
      constructor; [apply lt_asym; exact Hyx | exact Hy].
    + constructor; [constructor; assumption|].
      constructor; [exact Hyx|].
      rewrite Forall_forall in *. intros z Hz.
      apply (lt_negtrans _ (key y)); [exact Hoky | apply Hy; exact Hz | exact Hyx].
Qed.

Lemma stable_sort_sorted (l : list A) :
  Forall (fun y => ok (key y)) l ->
  StronglySorted (fun a b => lt (key b) (key a) = false) (stable_sort key lt l).
Proof.
  induction l as [|x l IH]; intros Hok; cbn [stable_sort fold_right]; [constructor|].
  apply insert_sorted_sorted.
  - apply (Permutation_Forall (stable_sort_perm l)). exact (Forall_inv_tail Hok).
  - apply IH. exact (Forall_inv_tail Hok).
Qed.

(** With [reverse=True] no element is less than a later one. *)
Lemma list_sort_reverse_sorted (l : list A) :
  Forall (fun y => ok (key y)) l ->
  StronglySorted (fun a b => lt (key a) (key b) = false) (list_sort key lt true l).
Proof.
  intros Hok. unfold list_sort.
  apply (StronglySorted_rev (fun a b => lt (key b) (key a) = false)).
  apply stable_sort_sorted.
  apply (Permutation_Forall (Permutation_rev l)). exact Hok.
Qed.

(** Stability. [p] selects elements none of which is less than another. *)
Variable p : A -> bool.
Hypothesis p_class : forall x y, p x = true -> p y = true -> lt (key y) (key x) = false.

Lemma insert_sorted_filter (x : A) (l : list A) :
  filter p (insert_sorted key lt x l) = filter p (x :: l).
Proof.
  induction l as [|y ys IH]; cbn [insert_sorted]; [reflexivity|].
  destruct (lt (key y) (key x)) eqn:Hyx; [|reflexivity].
  cbn [filter] in *. rewrite IH.
  destruct (p x) eqn:Hpx; [|reflexivity].
  destruct (p y) eqn:Hpy; [|reflexivity].
  rewrite (p_class x y Hpx Hpy) in Hyx. discriminate.
Qed.

Lemma stable_sort_filter (l : list A) :
  filter p (stable_sort key lt l) = filter p l.
Proof.
  induction l as [|x l IH]; cbn [stable_sort fold_right]; [reflexivity|].
  rewrite insert_sorted_filter. cbn [filter]. fold (stable_sort key lt l).
  rewrite IH. reflexivity.
Qed.

Lemma filter_rev (l : list A) : filter p (rev l) = rev (filter p l).
Proof.
  induction l as [|x l IH]; [reflexivity|].
  cbn [rev filter]. rewrite filter_app, IH. cbn [filter].
  destruct (p x); cbn [rev]; [reflexivity | apply app_nil_r].
Qed.

Lemma list_sort_filter (reverse : bool) (l : list A) :
  filter p (list_sort key lt reverse l) = filter p l.
Proof.
  unfold list_sort. destruct reverse.
  - rewrite filter_rev, stable_sort_filter, filter_rev. apply rev_involutive.
  - apply stable_sort_filter.
Qed.

End StableSortFacts.

(** ** Order of binary64 numbers *)

Lemma SFcompare_antisym (x y : spec_float) :
  SFcompare y x = option_map CompOpp (SFcompare x y).
Proof.
  destruct x as [[]|[]| |[] m1 e1], y as [[]|[]| |[] m2 e2]; simpl; try reflexivity;
    rewrite (Z.compare_antisym e1 e2);
    destruct (e1 ?= e2); simpl; try reflexivity;
    change (Pos.compare_cont Eq m2 m1) with (Pos.compare m2 m1);
    change (Pos.compare_cont Eq m1 m2) with (Pos.compare m1 m2);
    rewrite (Pos.compare_antisym m1 m2); destruct (m1 ?= m2)%positive; reflexivity.
Qed.

Lemma SFcompare_some (x y : spec_float) :
  x <> S754_nan -> y <> S754_nan -> SFcompare x y <> None.
Proof.
  destruct x as [[]|[]| |[] m1 e1], y as [[]|[]| |[] m2 e2]; simpl; congruence.
Qed.

Ltac compare_cases :=
  repeat match goal with
  | |- context [Pos.compare_cont Eq ?a ?b] =>
      change (Pos.compare_cont Eq a b) with (Pos.compare a b)
  | H : context [Pos.compare_cont Eq ?a ?b] |- _ =>
      change (Pos.compare_cont Eq a b) with (Pos.compare a b) in H
  end;
  repeat match goal with
  | |- context [Z.compare ?a ?b] => destruct (Z.compare_spec a b); subst
  | H : context [Z.compare ?a ?b] |- _ => destruct (Z.compare_spec a b); subst
  | |- context [Pos.compare ?a ?b] => destruct (Pos.compare_spec a b); subst
  | H : context [Pos.compare ?a ?b] |- _ => destruct (Pos.compare_spec a b); subst
  end; simpl in *; try congruence; try lia.

Lemma SFltb_negtrans (x y z : spec_float) :
  y <> S754_nan -> SFltb x y = false -> SFltb y z = false -> SFltb x z = false.
Proof.
  unfold SFltb.
  destruct x as [[]|[]| |[] m1 e1], y as [[]|[]| |[] m2 e2], z as [[]|[]| |[] m3 e3];
    simpl; intros; try congruence; compare_cases.
Qed.

Lemma not_nan_Prim2SF (x : float) : is_nan x = false -> Prim2SF x <> S754_nan.
Proof.
  unfold is_nan. rewrite eqb_spec. intros H Hnan. rewrite Hnan in H. discriminate H.
Qed.

Lemma float_ltb_asym (a b : float) : (a <? b)%float = true -> (b <? a)%float = false.
Proof.
  rewrite !ltb_spec. unfold SFltb.
  rewrite (SFcompare_antisym (Prim2SF a) (Prim2SF b)).
  destruct (SFcompare (Prim2SF a) (Prim2SF b)) as [[]|]; simpl; congruence.
Qed.

Lemma float_ltb_negtrans (a b c : float) :
  is_nan b = false ->
  (a <? b)%float = false -> (b <? c)%float = false -> (a <? c)%float = false.
Proof.
  rewrite !ltb_spec. intros Hb. apply SFltb_negtrans. apply not_nan_Prim2SF. exact Hb.
Qed.

(** Between numbers, "not less" is "greater or equal". *)
Lemma float_not_ltb_leb (a b : float) :
  is_nan a = false -> is_nan b = false ->
  (a <? b)%float = false -> (b <=? a)%float = true.
Proof.
  intros Ha Hb. rewrite ltb_spec, leb_spec. unfold SFltb, SFleb.
  rewrite (SFcompare_antisym (Prim2SF a) (Prim2SF b)).
  pose proof (SFcompare_some _ _ (not_nan_Prim2SF a Ha) (not_nan_Prim2SF b Hb)) as Hsome.
  destruct (SFcompare (Prim2SF a) (Prim2SF b)) as [[]|]; simpl; congruence.
Qed.


(** Numbers equal to the same number are not less than one another. *)
Lemma float_eqb_class (v a b : float) :
  (a =? v)%float = true -> (b =? v)%float = true -> (b <? a)%float = false.
Proof.
  intros Ha Hb.
  assert (Hv : is_nan v = false).
  { unfold is_nan. rewrite eqb_spec in *. unfold SFeqb in *.
    destruct (Prim2SF a) as [[]|[]| |[] m1 e1], (Prim2SF v) as [[]|[]| |[] m2 e2];
      simpl in *; try congruence; compare_cases;
      rewrite Z.compare_refl, Pos.compare_cont_refl; reflexivity. }
  apply (float_ltb_negtrans b v a Hv).
  - rewrite ltb_spec. rewrite eqb_spec in Hb. unfold SFltb, SFeqb in *.
    destruct (SFcompare (Prim2SF b) (Prim2SF v)) as [[]|]; congruence.
  - rewrite ltb_spec. rewrite eqb_spec in Ha. unfold SFltb, SFeqb in *.
    rewrite (SFcompare_antisym (Prim2SF a) (Prim2SF v)).
    destruct (SFcompare (Prim2SF a) (Prim2SF v)) as [[]|]; simpl; congruence.
Qed.

(** ** The optimized schedule *)

Lemma In_survivors (self : IntelligentScheduler) (now : datetime)
    (slots : list OptimalTimeSlot) (slot : OptimalTimeSlot) (occ : datetime) :
  In (slot, occ) (survivors self now slots)
  <-> In slot slots /\ _get_next_occurrence slot now = Ok occ
      /\ _is_sleep_time self occ = false.
Proof.
  unfold survivors. rewrite in_flat_map. split.
  - intros (s & Hin & Hs).
    destruct (_get_next_occurrence s now) as [o| |] eqn:Ho; try destruct Hs.
    destruct (_is_sleep_time self o) eqn:Hsleep; [destruct Hs|].
    destruct Hs as [[= <- <-] | []]. repeat split; assumption.
  - intros (Hin & Ho & Hsleep). exists slot. split; [exact Hin|].
    rewrite Ho, Hsleep. left. reflexivity.
Qed.

Lemma optimize_loop_survivors (self : IntelligentScheduler) (now : datetime)
    (slots : list OptimalTimeSlot) :
  forall schedule,
    (forall slot, In slot slots -> exists occ, _get_next_occurrence slot now = Ok occ) ->
    optimize_loop self now slots schedule
    = Ok (schedule ++ map survivor_item (survivors self now slots))%list.
Proof.
  induction slots as [|slot rest IH]; intros schedule Hok.
  - cbn. rewrite app_nil_r. reflexivity.
  - destruct (Hok slot (or_introl eq_refl)) as (occ & Hocc).
    cbn [optimize_loop]. rewrite Hocc. cbn [bind].
    rewrite IH by (intros s Hs; apply Hok; right; exact Hs).
    unfold survivors at 2. cbn [flat_map]. rewrite Hocc.
    fold (survivors self now rest).
    destruct (_is_sleep_time self occ); cbn [negb].
    + reflexivity.
    + rewrite <- app_assoc. reflexivity.
Qed.

(** C6. For a catalog of well-formed slots whose scores are numbers,
    [optimize_schedule] returns normally; its list is a rearrangement of
    the surviving occurrences in which no entry has a lower score than a
    later one, entries of equal score standing in catalog order;
    [next_post_time] is the time of a surviving occurrence whose score no
    other survivor exceeds; and when the sleep filter removes every
    occurrence the list is empty and [next_post_time] is [None]. *)
Theorem optimize_schedule_ranked (self : IntelligentScheduler) (now : datetime) :
  Forall valid_slot (optimal_times self) ->
  Forall (fun slot => is_nan (engagement_score slot) = false) (optimal_times self) ->
  exists r,
    optimize_schedule self now = Ok r
    /\ Permutation (map survivor_item (survivors self now (optimal_times self)))
         (optimal_schedule r)
    /\ StronglySorted
         (fun a b => (item_engagement_score b <=? item_engagement_score a)%float = true)
         (optimal_schedule r)
    /\ (forall v,
          filter (fun item => (item_engagement_score item =? v)%float) (optimal_schedule r)
          = filter (fun item => (item_engagement_score item =? v)%float)
              (map survivor_item (survivors self now (optimal_times self))))
    /\ match optimal_schedule r with
       | [] => next_post_time r = None
       | first :: _ =>
           next_post_time r = Some (time first)
           /\ exists slot occ,
                In slot (optimal_times self)
                /\ _get_next_occurrence slot now = Ok occ
                /\ _is_sleep_time self occ = false
                /\ first = schedule_item slot occ
                /\ time first = isoformat occ
                /\ forall slot' occ',
                     In slot' (optimal_times self) ->
                     _get_next_occurrence slot' now = Ok occ' ->
                     _is_sleep_time self occ' = false ->
                     (engagement_score slot' <=? engagement_score slot)%float = true
       end
    /\ ((forall slot occ,
           In slot (optimal_times self) ->
           _get_next_occurrence slot now = Ok occ -> _is_sleep_time self occ = true) ->
        optimal_schedule r = [] /\ next_post_time r = None).
Proof.
  intros Hvalid Hnum.
  set (unsorted := map survivor_item (survivors self now (optimal_times self))).
  assert (Hloop : optimize_loop self now (optimal_times self) [] = Ok unsorted).
  { rewrite optimize_loop_survivors; [reflexivity|].
    intros slot Hin. rewrite Forall_forall in Hvalid.
    destruct (next_occurrence_fields slot now (Hvalid slot Hin)) as (occ & Hocc & _).
    exists occ. exact Hocc. }
  assert (Hitems : forall item, In item unsorted ->
            exists slot occ, In slot (optimal_times self)
              /\ _get_next_occurrence slot now = Ok occ
              /\ _is_sleep_time self occ = false /\ item = schedule_item slot occ).
  { intros item Hitem. apply in_map_iff in Hitem as ([slot occ] & <- & Hin).
    apply In_survivors in Hin as (Hin & Hocc & Hsleep).
    exists slot, occ. repeat split; assumption. }
  assert (Hnums : Forall (fun item => is_nan (item_engagement_score item) = false) unsorted).
  { apply Forall_forall. intros item Hitem.
    destruct (Hitems item Hitem) as (slot & occ & Hin & _ & _ & ->).
    rewrite Forall_forall in Hnum. exact (Hnum slot Hin). }
  set (sorted := list_sort item_engagement_score PrimFloat.ltb true unsorted).
  assert (Hperm : Permutation unsorted sorted) by apply list_sort_perm.
  assert (Hsorted : StronglySorted
            (fun a b => (item_engagement_score a <? item_engagement_score b)%float = false)
            sorted).
  { apply (list_sort_reverse_sorted item_engagement_score PrimFloat.ltb
             (fun x => is_nan x = false)).
    - exact float_ltb_asym.
    - exact float_ltb_negtrans.
    - exact Hnums. }
  unfold optimize_schedule. rewrite Hloop. cbn [bind]. fold sorted.
  eexists. split; [reflexivity|]. cbn [optimal_schedule next_post_time].
  split; [exact Hperm|]. split; [|split; [|split]].
  - assert (Hn : Forall (fun item => is_nan (item_engagement_score item) = false) sorted)
      by (apply (Permutation_Forall Hperm); exact Hnums).
    clear Hperm. induction Hsorted as [|x l Hs IH Hx]; [constructor|].
    pose proof (Forall_inv Hn) as Hnx. pose proof (Forall_inv_tail Hn) as Hnl.
    constructor; [apply IH; exact Hnl|].
    rewrite Forall_forall in *. intros y Hy.
    apply float_not_ltb_leb; [exact Hnx | apply Hnl; exact Hy | apply Hx; exact Hy].
  - intros v. apply list_sort_filter. intros x y. apply float_eqb_class.
  - destruct sorted as [|first rest] eqn:Hs; [reflexivity|].
    split; [reflexivity|].
    assert (Hfirst : In first unsorted)
      by (apply (Permutation_in _ (Permutation_sym Hperm)); left; reflexivity).
    destruct (Hitems first Hfirst) as (slot & occ & Hin & Hocc & Hsleep & Heq).
    exists slot, occ. repeat split; try assumption.
    + rewrite Heq. reflexivity.
    + intros slot' occ' Hin' Hocc' Hsleep'.
      assert (Hother : In (schedule_item slot' occ') (first :: rest)).
      { apply (Permutation_in _ Hperm). apply in_map_iff.
        exists (slot', occ'). split; [reflexivity|].
        apply In_survivors. repeat split; assumption. }
      rewrite Forall_forall in Hnum.
      apply float_not_ltb_leb; [exact (Hnum slot Hin) | exact (Hnum slot' Hin') |].
      apply StronglySorted_inv in Hsorted as [_ Hx]. rewrite Forall_forall in Hx.
      destruct Hother as [Hsame | Hrest].
      * rewrite Heq in Hsame.
        replace (engagement_score slot') with (engagement_score slot)
          by (apply (f_equal item_engagement_score) in Hsame; exact Hsame).
        destruct (engagement_score slot <? engagement_score slot)%float eqn:Hlt;
          [|reflexivity].
        rewrite (float_ltb_asym _ _ Hlt) in Hlt. discriminate.
      * specialize (Hx _ Hrest). rewrite Heq in Hx. exact Hx.
  - intros Hall.
    assert (Hnil : unsorted = []).
    { destruct unsorted as [|item rest] eqn:Hu; [reflexivity|].
      destruct (Hitems item (or_introl eq_refl)) as (slot & occ & Hin & Hocc & Hsleep & _).
      rewrite (Hall slot occ Hin Hocc) in Hsleep. discriminate. }
    subst sorted. rewrite Hnil. split; reflexivity.
Qed.

Lemma optimize_schedule_ranked_witness :
  exists r,
    optimize_schedule init tuesday_0800 = Ok r
    /\ Permutation (map survivor_item (survivors init tuesday_0800 (optimal_times init)))
         (optimal_schedule r)
    /\ StronglySorted
         (fun a b => (item_engagement_score b <=? item_engagement_score a)%float = true)
         (optimal_schedule r)
    /\ (forall v,
          filter (fun item => (item_engagement_score item =? v)%float) (optimal_schedule r)
          = filter (fun item => (item_engagement_score item =? v)%float)
              (map survivor_item (survivors init tuesday_0800 (optimal_times init))))
    /\ match optimal_schedule r with
       | [] => next_post_time r = None
       | first :: _ =>
           next_post_time r = Some (time first)
           /\ exists slot occ,
                In slot (optimal_times init)
                /\ _get_next_occurrence slot tuesday_0800 = Ok occ
                /\ _is_sleep_time init occ = false
                /\ first = schedule_item slot occ
                /\ time first = isoformat occ
                /\ forall slot' occ',
                     In slot' (optimal_times init) ->
                     _get_next_occurrence slot' tuesday_0800 = Ok occ' ->
                     _is_sleep_time init occ' = false ->
                     (engagement_score slot' <=? engagement_score slot)%float = true
       end
    /\ ((forall slot occ,
           In slot (optimal_times init) ->
           _get_next_occurrence slot tuesday_0800 = Ok occ ->
           _is_sleep_time init occ = true) ->
        optimal_schedule r = [] /\ next_post_time r = None).
Proof.
  apply (optimize_schedule_ranked init tuesday_0800).
  - repeat constructor; simpl; lia.
  - repeat constructor.
Defined.

(** The best-scored occurrence need not be the nearest one: on Tuesday
    2024-01-02 at 08:00 the default catalog announces Friday 20:00 (score
    0.88), although Wednesday 14:00 (score 0.82) is in the list. The two
    entries of score 0.85 stand in catalog order, reddit before discord. *)
Example next_post_time_not_nearest :
  exists r,
    optimize_schedule init tuesday_0800 = Ok r
    /\ next_post_time r = Some "2024-01-05T20:00:00+00:00"
    /\ map time (optimal_schedule r)
       = [ "2024-01-05T20:00:00+00:00"; "2024-01-09T09:00:00+00:00";
           "2024-01-06T19:30:00+00:00"; "2024-01-09T08:30:00+00:00";
           "2024-01-03T14:00:00+00:00"; "2024-01-04T18:00:00+00:00";
           "2024-01-07T15:00:00+00:00"; "2024-01-06T12:00:00+00:00";
           "2024-01-07T11:00:00+00:00" ]
    /\ map item_platform (optimal_schedule r)
       = [ "discord"; "reddit"; "discord"; "mastodon"; "reddit"; "mastodon";
           "discord"; "mastodon"; "reddit" ]
    /\ sleep_period r = "00:00 - 06:00".
Proof. eexists. split; [vm_compute; reflexivity|]. vm_compute. repeat split. Qed.

(** C6, counterexample. After two engagement updates with a score that is
    not a number, which turn the scores of the second and third slot of the
    catalog into NaN, the optimized schedule starts with the entry of score
    0.85 and holds the entry of score 0.88 in fourth place: the list is not
    in descending order of score, and [next_post_time] is not the time of
    the best-scored surviving occurrence. *)
Lemma nan_score_breaks_ranking :
  exists r,
    optimize_schedule after_nan_updates tuesday_0800 = Ok r
    /\ List.length (optimal_schedule r) = 9%nat
    /\ nth_error (map item_engagement_score (optimal_schedule r)) 0 = Some 0.85%float
    /\ nth_error (map item_engagement_score (optimal_schedule r)) 3 = Some 0.88%float
    /\ (0.85 <? 0.88)%float = true
    /\ (0.88 <=? 0.85)%float = false
    /\ nth_error (map time (optimal_schedule r)) 0 = Some "2024-01-09T09:00:00+00:00"
    /\ nth_error (map time (optimal_schedule r)) 3 = Some "2024-01-05T20:00:00+00:00"
    /\ next_post_time r = Some "2024-01-09T09:00:00+00:00".
Proof. eexists. split; [vm_compute; reflexivity|]. vm_compute. repeat split. Qed.

(** ** The upcoming-posts projection *)

Lemma asdict_copy (post : ScheduleEntry) : asdict post = post.
Proof. destruct post. reflexivity. Qed.

Lemma map_asdict (posts : list ScheduleEntry) : map asdict posts = posts.
Proof.
  induction posts as [|post rest IH]; [reflexivity|].
  cbn [map]. rewrite asdict_copy, IH. reflexivity.
Qed.

Lemma StronglySorted_weaken {A : Type} (R R' : A -> A -> Prop) (l : list A) :
  (forall a b, R a b -> R' a b) -> StronglySorted R l -> StronglySorted R' l.
Proof.
  intros Himp. induction 1 as [|x l Hs IH Hx]; constructor; [exact IH|].
  rewrite Forall_forall in *. intros y Hy. apply Himp, Hx, Hy.
Qed.

Lemma StronglySorted_app_l {A : Type} (R : A -> A -> Prop) (l1 l2 : list A) :
  StronglySorted R (l1 ++ l2) -> StronglySorted R l1.
Proof.
  induction l1 as [|x l1 IH]; intros Hs; [constructor|].
  cbn [app] in Hs. apply StronglySorted_inv in Hs as [Hs Hx].
  constructor; [apply IH; exact Hs|].
  apply Forall_app in Hx as [Hx _]. exact Hx.
Qed.

Lemma is_upcoming_iff (now : datetime) (post : ScheduleEntry) :
  is_upcoming now post = true <-> now < scheduled_time post /\ status post = "pending".
Proof.
  unfold is_upcoming. rewrite andb_true_iff, Z.ltb_lt, String.eqb_eq. tauto.
Qed.

(** What the projection returns was selected by its filter. *)
Lemma upcoming_posts_selected (self : IntelligentScheduler) (now : datetime)
    (post : ScheduleEntry) :
  In post (fst (get_upcoming_posts self now)) ->
  status post = "pending" /\ now < scheduled_time post /\ In post (scheduled_posts self).
Proof.
  unfold get_upcoming_posts. cbv zeta. cbn [fst]. rewrite map_asdict.
  fold (is_upcoming now). intros Hin.
  assert (Hsorted : In post (list_sort scheduled_time Z.ltb false
                               (filter (is_upcoming now) (scheduled_posts self)))).
  { rewrite <- (firstn_skipn 10). apply in_or_app. left. exact Hin. }
  apply (Permutation_in _ (Permutation_sym (list_sort_perm _ _ _ _))) in Hsorted.
  apply filter_In in Hsorted as [Hposts Hup]. apply is_upcoming_iff in Hup. tauto.
Qed.

(** C8. The projection holds at most 10 entries, all of them pending
    entries of the list scheduled strictly after now, in ascending order of
    scheduled time; the pending future entries it leaves out ([later]) are
    scheduled no sooner than any entry it returns, and there are some only
    when it returns 10; the scheduler is left as it was. *)
Theorem upcoming_posts_projection (self : IntelligentScheduler) (now : datetime) :
  let upcoming := fst (get_upcoming_posts self now) in
  (List.length upcoming <= 10)%nat
  /\ (forall post, In post upcoming ->
        status post = "pending" /\ now < scheduled_time post
        /\ In post (scheduled_posts self))
  /\ StronglySorted (fun a b => scheduled_time a <= scheduled_time b) upcoming
  /\ (exists later,
        Permutation (upcoming ++ later) (filter (is_upcoming now) (scheduled_posts self))
        /\ (forall a b, In a upcoming -> In b later ->
              scheduled_time a <= scheduled_time b)
        /\ (later <> [] -> List.length upcoming = 10%nat))
  /\ List.length upcoming
     = Nat.min 10 (List.length (filter (is_upcoming now) (scheduled_posts self)))
  /\ snd (get_upcoming_posts self now) = self.
Proof.
  unfold get_upcoming_posts. cbv zeta. cbn [fst snd]. rewrite map_asdict.
  fold (is_upcoming now).
  set (pending := filter (is_upcoming now) (scheduled_posts self)).
  set (sorted := list_sort scheduled_time Z.ltb false pending).
  assert (Hperm : Permutation pending sorted) by apply list_sort_perm.
  assert (Hsorted : StronglySorted (fun a b => scheduled_time a <= scheduled_time b) sorted).
  { apply (StronglySorted_weaken
             (fun a b => (scheduled_time b <? scheduled_time a) = false)).
    - intros a b H. apply Z.ltb_ge in H. exact H.
    - apply (stable_sort_sorted scheduled_time Z.ltb (fun _ => True)).
      + intros a b H. apply Z.ltb_lt in H. apply Z.ltb_ge. lia.
      + intros a b c _ H1 H2. apply Z.ltb_ge in H1, H2. apply Z.ltb_ge. lia.
      + apply Forall_forall. intros; exact I. }
  pose proof (firstn_skipn 10 sorted) as Hsplit.
  split; [apply firstn_le_length|]. split; [|split; [|split; [|split]]].
  - intros post Hin. apply (upcoming_posts_selected self now).
    unfold get_upcoming_posts. cbv zeta. cbn [fst]. rewrite map_asdict. exact Hin.
  - apply (StronglySorted_app_l _ _ (skipn 10 sorted)). rewrite Hsplit. exact Hsorted.
  - exists (skipn 10 sorted). split; [|split].
    + rewrite Hsplit. symmetry. exact Hperm.
    + apply StronglySorted_app_cross. rewrite Hsplit. exact Hsorted.
    + intros Hlater. rewrite length_firstn.
      destruct (Nat.le_gt_cases (List.length sorted) 10) as [Hle | Hgt]; [|lia].
      exfalso. apply Hlater. apply skipn_all2. exact Hle.
  - rewrite length_firstn. rewrite (Permutation_length Hperm). reflexivity.
  - reflexivity.
Qed.

(** ** Engagement updates *)

Lemma slot_matches_iff (target : string) (post_time : datetime) (slot : OptimalTimeSlot) :
  slot_matches target (dt_weekday post_time) (dt_hour post_time) slot = true
  <-> matches target post_time slot.
Proof.
  unfold slot_matches, matches.
  rewrite !andb_true_iff, String.eqb_eq, Z.eqb_eq, Z.leb_le. tauto.
Qed.

Lemma find_existing_slot_Some (target : string) (day hour_ : Z)
    (f : OptimalTimeSlot -> OptimalTimeSlot) (slots : list OptimalTimeSlot) :
  forall i,
    find_existing_slot target day hour_ slots = Some i ->
    exists before slot after,
      slots = (before ++ slot :: after)%list
      /\ List.length before = i
      /\ slot_matches target day hour_ slot = true
      /\ Forall (fun s => slot_matches target day hour_ s = false) before
      /\ update_slot i f slots = (before ++ f slot :: after)%list.
Proof.
  induction slots as [|slot rest IH]; intros i Hfind; [discriminate|].
  cbn [find_existing_slot] in Hfind.
  destruct (slot_matches target day hour_ slot) eqn:Hm.
  - injection Hfind as <-. exists [], slot, rest. repeat split; auto.
  - destruct (find_existing_slot target day hour_ rest) as [j|] eqn:Hrest; [|discriminate].
    injection Hfind as <-.
    destruct (IH j eq_refl) as (before & s & after & -> & Hlen & Hs & Hbefore & Hupd).
    exists (slot :: before), s, after. cbn [app List.length update_slot].
    rewrite Hupd, Hlen. repeat split; auto.
Qed.

Lemma find_existing_slot_None (target : string) (day hour_ : Z)
    (slots : list OptimalTimeSlot) :
  find_existing_slot target day hour_ slots = None
  <-> Forall (fun s => slot_matches target day hour_ s = false) slots.
Proof.
  induction slots as [|slot rest IH]; cbn [find_existing_slot].
  - split; [constructor | reflexivity].
  - destruct (slot_matches target day hour_ slot) eqn:Hm.
    + split; [discriminate|]. intros H. apply Forall_inv in H. congruence.
    + destruct (find_existing_slot target day hour_ rest) as [j|]; cbn [option_map].
      * split; [discriminate|]. intros H. apply Forall_inv_tail in H.
        apply IH in H. discriminate.
      * split; [|reflexivity]. intros _. constructor; [exact Hm | apply IH; reflexivity].
Qed.

(** C3, counterexample. From score 0.80 one update with 0.60 leaves the
    binary64 number 0.7600000000000001, which is not 0.76; a second one
    leaves 0.7280000000000001, which is not 0.728. *)
Lemma moving_average_is_rounded :
  map engagement_score
    (optimal_times (update_engagement_data one_slot "reddit" tuesday_0900 0.60))
  = [0.7600000000000001%float]
  /\ (0.7600000000000001 =? 0.76)%float = false
  /\ map engagement_score
       (optimal_times
          (update_engagement_data
             (update_engagement_data one_slot "reddit" tuesday_0900 0.60)
             "reddit" tuesday_0900 0.60))
     = [0.7280000000000001%float]
  /\ (0.7280000000000001 =? 0.728)%float = false.
Proof. repeat split; vm_compute; reflexivity. Qed.

(** C3, amended. When the catalog holds a slot that matches the update, the
    first such slot in catalog order, and no other, has its score replaced
    by [old * 0.8 + observed * 0.2] in binary64 arithmetic. From 0.80 and an
    observed 0.60 this gives 0.7600000000000001, and once more
    0.7280000000000001: the values 0.76 and 0.728 up to rounding. *)
Theorem engagement_update_blends_first_match :
  (forall (self : IntelligentScheduler) (target : string) (post_time : datetime)
          (score : float),
      (exists slot, In slot (optimal_times self) /\ matches target post_time slot) ->
      exists before slot after,
        optimal_times self = (before ++ slot :: after)%list
        /\ matches target post_time slot
        /\ (forall earlier, In earlier before -> ~ matches target post_time earlier)
        /\ update_engagement_data self target post_time score
           = set_optimal_times self
               (before
                ++ set_engagement_score slot
                     (engagement_score slot * 0.8 + score * 0.2)%float
                :: after)%list)
  /\ map engagement_score
       (optimal_times (update_engagement_data one_slot "reddit" tuesday_0900 0.60))
     = [0.7600000000000001%float]
  /\ map engagement_score
       (optimal_times
          (update_engagement_data
             (update_engagement_data one_slot "reddit" tuesday_0900 0.60)
             "reddit" tuesday_0900 0.60))
     = [0.7280000000000001%float]
  /\ (abs (0.7600000000000001 - 0.76) <=? 0x1p-53)%float = true
  /\ (abs (0.7280000000000001 - 0.728) <=? 0x1p-53)%float = true.
Proof.
  split; [|repeat split; vm_compute; reflexivity].
  intros self target post_time score (found & Hin & Hfound).
  unfold update_engagement_data. cbv zeta.
  destruct (find_existing_slot target (dt_weekday post_time) (dt_hour post_time)
              (optimal_times self)) as [i|] eqn:Hfind.
  - destruct (find_existing_slot_Some _ _ _ (blend score) _ _ Hfind)
      as (before & slot & after & Hsplit & _ & Hslot & Hbefore & Hupd).
    exists before, slot, after. split; [exact Hsplit|].
    split; [apply slot_matches_iff; exact Hslot|]. split.
    + intros earlier Hearlier Hm. apply slot_matches_iff in Hm.
      rewrite Forall_forall in Hbefore. rewrite (Hbefore earlier Hearlier) in Hm.
      discriminate.
    + rewrite Hupd. reflexivity.
  - apply find_existing_slot_None in Hfind. rewrite Forall_forall in Hfind.
    apply slot_matches_iff in Hfound. rewrite (Hfind found Hin) in Hfound. discriminate.
Qed.

Lemma engagement_update_blends_first_match_witness :
  exists before slot after,
    optimal_times init = (before ++ slot :: after)%list
    /\ matches "discord" (mk_datetime 738892 16 45 0 0) slot
    /\ (forall earlier, In earlier before ->
          ~ matches "discord" (mk_datetime 738892 16 45 0 0) earlier)
    /\ update_engagement_data init "discord" (mk_datetime 738892 16 45 0 0) 0.9
       = set_optimal_times init
           (before
            ++ set_engagement_score slot (engagement_score slot * 0.8 + 0.9 * 0.2)%float
            :: after)%list.
Proof.
  apply (proj1 engagement_update_blends_first_match init "discord"
           (mk_datetime 738892 16 45 0 0) 0.9%float).
  exists (mkOptimalTimeSlot 15 0 6 0.80 "discord"). split.
  - simpl. tauto.
  - vm_compute. repeat split; congruence.
Defined.

Lemma no_match_find_None (self : IntelligentScheduler) (target : string)
    (post_time : datetime) :
  (forall slot, In slot (optimal_times self) -> ~ matches target post_time slot) ->
  find_existing_slot target (dt_weekday post_time) (dt_hour post_time)
    (optimal_times self) = None.
Proof.
  intros Hnone. apply find_existing_slot_None, Forall_forall. intros slot Hin.
  apply not_true_is_false. rewrite slot_matches_iff. apply Hnone. exact Hin.
Qed.



Lemma nth_error_update_slot (f : OptimalTimeSlot -> OptimalTimeSlot)
    (slots : list OptimalTimeSlot) :
  forall i j,
    nth_error (update_slot i f slots) j
    = if Nat.eqb j i then option_map f (nth_error slots j) else nth_error slots j.
Proof.
  induction slots as [|slot rest IH]; intros i j.
  - cbn [update_slot]. destruct j, i; cbn; try reflexivity;
      destruct (Nat.eqb j i); reflexivity.
  - destruct i as [|i], j as [|j]; cbn [update_slot nth_error Nat.eqb option_map];
      try reflexivity. apply IH.
Qed.

Lemma update_slot_length (f : OptimalTimeSlot -> OptimalTimeSlot)
    (slots : list OptimalTimeSlot) :
  forall i, List.length (update_slot i f slots) = List.length slots.
Proof.
  induction slots as [|slot rest IH]; intros [|i]; cbn [update_slot List.length];
    try reflexivity. rewrite IH. reflexivity.
Qed.

(** C10. An engagement update leaves the scheduler as it was, or replaces
    the score of one slot, every other slot and every other field of that
    slot staying as they are, or appends one slot. Slot by slot, the hour,
    minute, weekday and platform of the catalog are kept at their
    positions; the catalog never gets shorter, and the schedule entries and
    the configuration are not touched. *)
Theorem engagement_update_frame (self : IntelligentScheduler) (target : string)
    (post_time : datetime) (score : float) :
  let self' := update_engagement_data self target post_time score in
  (self' = self
   \/ (exists before slot after new_score,
         optimal_times self = (before ++ slot :: after)%list
         /\ optimal_times self'
            = (before ++ set_engagement_score slot new_score :: after)%list)
   \/ (exists new_slot, optimal_times self' = (optimal_times self ++ [new_slot])%list))
  /\ (forall i slot,
        nth_error (optimal_times self) i = Some slot ->
        exists slot',
          nth_error (optimal_times self') i = Some slot'
          /\ hour slot' = hour slot /\ minute slot' = minute slot
          /\ day_of_week slot' = day_of_week slot /\ platform slot' = platform slot)
  /\ (List.length (optimal_times self) <= List.length (optimal_times self'))%nat
  /\ scheduled_posts self' = scheduled_posts self
  /\ sleep_start self' = sleep_start self
  /\ sleep_end self' = sleep_end self
  /\ user_timezone self' = user_timezone self.
Proof.
  unfold update_engagement_data. cbv zeta.
  destruct (find_existing_slot target (dt_weekday post_time) (dt_hour post_time)
              (optimal_times self)) as [i|] eqn:Hfind.
  - destruct (find_existing_slot_Some _ _ _ (blend score) _ _ Hfind)
      as (before & slot & after & Hsplit & _ & _ & _ & Hupd).
    cbn [set_optimal_times optimal_times scheduled_posts sleep_start sleep_end user_timezone].
    split; [|split; [|split]].
    + right. left. exists before, slot, after. eexists. split; [exact Hsplit|].
      rewrite Hupd. reflexivity.
    + intros j s Hs. rewrite nth_error_update_slot, Hs.
      destruct (Nat.eqb j i); cbn [option_map]; eexists; (split; [reflexivity|]);
        repeat split; reflexivity.
    + rewrite update_slot_length. lia.
    + repeat split; reflexivity.
  - destruct (0.75 <? score)%float.
    + cbn [set_optimal_times optimal_times scheduled_posts sleep_start sleep_end user_timezone].
      split; [|split; [|split]].
      * right. right. eexists. reflexivity.
      * intros j s Hs. exists s. split; [|repeat split; reflexivity].
        rewrite nth_error_app1; [exact Hs|]. apply nth_error_Some. congruence.
      * rewrite length_app. lia.
      * repeat split; reflexivity.
    + split; [left; reflexivity|]. split; [|split; [lia | repeat split; reflexivity]].
      intros j s Hs. exists s. split; [exact Hs | repeat split; reflexivity].
Qed.

(** ** The life of a schedule entry *)

Lemma set_scheduled_posts_same (self : IntelligentScheduler) :
  set_scheduled_posts self (scheduled_posts self) = self.
Proof. destruct self. reflexivity. Qed.

Lemma is_sleep_time_posts (self : IntelligentScheduler) (posts : list ScheduleEntry)
    (dt : datetime) :
  _is_sleep_time (set_scheduled_posts self posts) dt = _is_sleep_time self dt.
Proof. reflexivity. Qed.

Lemma process_post_cases (self : IntelligentScheduler) (now : datetime)
    (publish : ScheduleEntry -> bool) (post : ScheduleEntry) :
  (process_post self now publish post = post
   /\ (status post <> "pending" \/ now < scheduled_time post
       \/ _is_sleep_time self now = true))
  \/ (status post = "pending" /\ scheduled_time post <= now
      /\ _is_sleep_time self now = false
      /\ process_post self now publish post
         = set_status post (if publish post then "posted" else "failed")).
Proof.
  unfold process_post.
  destruct (String.eqb_spec (status post) "pending") as [Hpending | Hother];
    [|left; split; [reflexivity | left; exact Hother]].
  destruct (Z.leb_spec (scheduled_time post) now) as [Hdue | Hlater];
    [|left; split; [reflexivity | right; left; exact Hlater]].
  destruct (_is_sleep_time self now) eqn:Hsleep;
    [left; split; [reflexivity | right; right; reflexivity]|].
  right. cbn [andb negb]. repeat split; try assumption.
  destruct (publish post); reflexivity.
Qed.

Lemma evolves_trans (a b c : ScheduleEntry) : evolves a b -> evolves b c -> evolves a c.
Proof.
  unfold evolves. intros [-> | (Ha & Hb)] Hbc; [exact Hbc|].
  destruct Hbc as [-> | (Hpending & _)]; [right; split; assumption|].
  destruct Hb as [-> | ->]; cbn in Hpending; discriminate.
Qed.

Lemma process_post_evolves (self : IntelligentScheduler) (now : datetime)
    (publish : ScheduleEntry -> bool) (post : ScheduleEntry) :
  evolves post (process_post self now publish post).
Proof.
  destruct (process_post_cases self now publish post) as [[-> _] | (Hp & _ & _ & ->)].
  - left. reflexivity.
  - right. split; [exact Hp|]. destruct (publish post); [left | right]; reflexivity.
Qed.

Lemma update_engagement_data_posts (self : IntelligentScheduler) (target : string)
    (post_time : datetime) (score : float) :
  scheduled_posts (update_engagement_data self target post_time score)
  = scheduled_posts self.
Proof.
  unfold update_engagement_data. cbv zeta.
  destruct (find_existing_slot _ _ _ _); [reflexivity|].
  destruct (0.75 <? score)%float; reflexivity.
Qed.

Lemma schedule_post_appends (fuel : nat) (self self' : IntelligentScheduler)
    (content target : string) (preferred_time : option datetime)
    (now created : datetime) (entry : ScheduleEntry) :
  schedule_post fuel self content target preferred_time now created = Ok (entry, self') ->
  self' = set_scheduled_posts self (scheduled_posts self ++ [entry])
  /\ status entry = "pending".
Proof.
  unfold schedule_post.
  destruct (match preferred_time with
            | Some t => Ok t
            | None => _find_next_optimal_slot fuel self target now
            end) as [scheduled| |]; cbn [bind]; try discriminate.
  intros [= <- <-]. split; reflexivity.
Qed.

(** One operation keeps every entry at its position and lets it evolve. *)
Lemma run_evolves (self : IntelligentScheduler) (op : operation) (i : nat)
    (post : ScheduleEntry) :
  nth_error (scheduled_posts self) i = Some post ->
  exists post',
    nth_error (scheduled_posts (run self op)) i = Some post' /\ evolves post post'.
Proof.
  intros Hpost.
  destruct op as [now | fuel content target preferred_time now created | now
                 | now publish | target post_time score]; cbn [run].
  - exists post. split; [exact Hpost | left; reflexivity].
  - destruct (schedule_post fuel self content target preferred_time now created)
      as [[entry self']| |] eqn:Hrun;
      try (exists post; split; [exact Hpost | left; reflexivity]).
    apply schedule_post_appends in Hrun as [-> _].
    exists post. split; [|left; reflexivity].
    cbn [set_scheduled_posts scheduled_posts].
    rewrite nth_error_app1; [exact Hpost|]. apply nth_error_Some. congruence.
  - exists post. split; [exact Hpost | left; reflexivity].
  - exists (process_post self now publish post). split; [|apply process_post_evolves].
    cbn [process_scheduled_posts set_scheduled_posts scheduled_posts].
    rewrite nth_error_map, Hpost. reflexivity.
  - exists post. split; [|left; reflexivity].
    rewrite update_engagement_data_posts. exact Hpost.
Qed.

Lemma run_all_evolves (ops : list operation) :
  forall (self : IntelligentScheduler) (i : nat) (post : ScheduleEntry),
    nth_error (scheduled_posts self) i = Some post ->
    exists post',
      nth_error (scheduled_posts (run_all self ops)) i = Some post'
      /\ evolves post post'.
Proof.
  induction ops as [|op ops IH]; intros self i post Hpost.
  - exists post. split; [exact Hpost | left; reflexivity].
  - destruct (run_evolves self op i post Hpost) as (mid & Hmid & Hstep).
    destruct (IH (run self op) i mid Hmid) as (post' & Hpost' & Hrest).
    exists post'. split; [exact Hpost' | exact (evolves_trans _ _ _ Hstep Hrest)].
Qed.

(** C7. A sweep made inside the sleep window changes nothing, so a pending
    entry that is due stays pending; made outside the window it turns such
    an entry into a posted or a failed one; and a sweep that changes an
    entry is made outside the window, on a pending entry that is due.
    Through any sequence of operations an entry keeps its position and
    either stays as it is or goes from pending to posted or failed with
    its other fields kept, so that an entry that is not pending is never
    changed again. *)
Theorem status_lifecycle (self : IntelligentScheduler) (now : datetime)
    (publish : ScheduleEntry -> bool) :
  (_is_sleep_time self now = true -> process_scheduled_posts self now publish = self)
  /\ (forall i post,
        nth_error (scheduled_posts self) i = Some post ->
        status post = "pending" -> scheduled_time post <= now ->
        _is_sleep_time self now = false ->
        exists st,
          (st = "posted" \/ st = "failed")
          /\ nth_error (scheduled_posts (process_scheduled_posts self now publish)) i
             = Some (set_status post st))
  /\ (forall i post post',
        nth_error (scheduled_posts self) i = Some post ->
        nth_error (scheduled_posts (process_scheduled_posts self now publish)) i
        = Some post' ->
        post' <> post ->
        _is_sleep_time self now = false
        /\ status post = "pending" /\ scheduled_time post <= now
        /\ (post' = set_status post "posted" \/ post' = set_status post "failed"))
  /\ (forall ops i post,
        nth_error (scheduled_posts self) i = Some post ->
        exists post',
          nth_error (scheduled_posts (run_all self ops)) i = Some post'
          /\ (post' = post
              \/ (status post = "pending"
                  /\ (post' = set_status post "posted"
                      \/ post' = set_status post "failed")))
          /\ (status post <> "pending" -> post' = post)).
Proof.
  split; [|split; [|split]].
  - intros Hsleep. unfold process_scheduled_posts.
    assert (Hmap : map (process_post self now publish) (scheduled_posts self)
                   = scheduled_posts self).
    { induction (scheduled_posts self) as [|post rest IH]; [reflexivity|].
      cbn [map]. rewrite IH. f_equal.
      destruct (process_post_cases self now publish post)
        as [[H _] | (_ & _ & Hawake & _)]; [exact H | congruence]. }
    rewrite Hmap. apply set_scheduled_posts_same.
  - intros i post Hpost Hpending Hdue Hawake.
    exists (if publish post then "posted" else "failed").
    split; [destruct (publish post); [left | right]; reflexivity|].
    cbn [process_scheduled_posts set_scheduled_posts scheduled_posts].
    rewrite nth_error_map, Hpost. cbn [option_map]. f_equal.
    destruct (process_post_cases self now publish post)
      as [[_ [H | [H | H]]] | (_ & _ & _ & H)];
      [congruence | lia | congruence | exact H].
  - intros i post post' Hpost Hafter Hchanged.
    cbn [process_scheduled_posts set_scheduled_posts scheduled_posts] in Hafter.
    rewrite nth_error_map, Hpost in Hafter. cbn [option_map] in Hafter.
    injection Hafter as <-.
    destruct (process_post_cases self now publish post)
      as [[H _] | (Hpending & Hdue & Hawake & H)]; [contradiction|].
    repeat split; try assumption.
    rewrite H. destruct (publish post); [left | right]; reflexivity.
  - intros ops i post Hpost.
    destruct (run_all_evolves ops self i post Hpost) as (post' & Hpost' & Hev).
    exists post'. split; [exact Hpost'|]. split; [exact Hev|].
    intros Hother. destruct Hev as [-> | (Hpending & _)]; [reflexivity | contradiction].
Qed.

(** ** A post for a platform without slots *)

(** C9. Scheduled without a preferred time, for a platform that has no slot
    in the catalog, at an instant outside the sleep window, a post gets the
    current instant itself as its scheduled time. The entry is due at
    once: a sweep at that instant marks it posted or failed. And whatever
    operations follow, no projection of upcoming posts taken at that
    instant or later returns the entry, in any status. *)
Theorem unslotted_post_is_due_at_once (fuel : nat) (self : IntelligentScheduler)
    (content target : string) (now created : datetime) :
  (0 < fuel)%nat ->
  (forall slot, In slot (optimal_times self) -> platform slot <> target) ->
  _is_sleep_time self now = false ->
  exists entry,
    let self' := set_scheduled_posts self (scheduled_posts self ++ [entry]) in
    schedule_post fuel self content target None now created = Ok (entry, self')
    /\ scheduled_time entry = now
    /\ status entry = "pending"
    /\ (forall publish,
          nth_error (scheduled_posts (process_scheduled_posts self' now publish))
            (List.length (scheduled_posts self))
          = Some (set_status entry (if publish entry then "posted" else "failed")))
    /\ (forall ops now' post,
          now <= now' ->
          In post (fst (get_upcoming_posts (run_all self' ops) now')) ->
          forall st, post <> set_status entry st).
Proof.
  intros Hfuel Hnone Hawake.
  assert (Hloop : non_sleep_loop fuel self now = Ok (now, O)).
  { destruct fuel as [|fuel]; [lia|]. cbn [non_sleep_loop]. rewrite Hawake. reflexivity. }
  assert (Hfind : _find_next_optimal_slot fuel self target now = Ok now).
  { rewrite find_next_optimal_slot_fallback.
    - unfold _get_next_non_sleep_time. rewrite Hloop. reflexivity.
    - intros slot Hin Hplatform. destruct (Hnone slot Hin Hplatform). }
  unfold schedule_post. rewrite Hfind. cbn [bind].
  eexists. cbv zeta. split; [reflexivity|]. split; [reflexivity|]. split; [reflexivity|].
  split.
  - intros publish.
    cbn [process_scheduled_posts set_scheduled_posts scheduled_posts].
    rewrite nth_error_map, nth_error_app2 by lia.
    rewrite Nat.sub_diag. cbn [nth_error option_map]. f_equal.
    unfold process_post. rewrite is_sleep_time_posts, Hawake.
    cbn [status scheduled_time]. rewrite Z.leb_refl. cbn [String.eqb andb negb].
    destruct (publish _); reflexivity.
  - intros ops now' post Hlater Hin st ->.
    apply upcoming_posts_selected in Hin as (_ & Hfuture & _).
    cbn [scheduled_time set_status] in Hfuture. lia.
Qed.

Lemma unslotted_post_is_due_at_once_witness :
  exists entry,
    let self' := set_scheduled_posts init (scheduled_posts init ++ [entry]) in
    schedule_post 1 init "post-1" "twitter" None tuesday_0800 tuesday_0800
    = Ok (entry, self')
    /\ scheduled_time entry = tuesday_0800
    /\ status entry = "pending"
    /\ (forall publish,
          nth_error (scheduled_posts (process_scheduled_posts self' tuesday_0800 publish))
            (List.length (scheduled_posts init))
          = Some (set_status entry (if publish entry then "posted" else "failed")))
    /\ (forall ops now' post,
          tuesday_0800 <= now' ->
          In post (fst (get_upcoming_posts (run_all self' ops) now')) ->
          forall st, post <> set_status entry st).
Proof.
  apply (unslotted_post_is_due_at_once 1 init "post-1" "twitter" tuesday_0800 tuesday_0800).
  - lia.
  - intros slot Hin Hplatform. simpl in Hin.
    repeat (destruct Hin as [<- | Hin]; [discriminate Hplatform|]).
    destruct Hin.
  - vm_compute. reflexivity.
Defined.

(** * Further properties of the scheduler *)

(** ** Occurrences *)

(** X1. For a well-formed slot [_get_next_occurrence] returns an instant
    strictly after the query instant, with the weekday, hour and minute of
    the slot and zero seconds, on the first day after today that has the
    slot's weekday: one to seven days ahead, never today. *)
Theorem next_occurrence_first_later_day (slot : OptimalTimeSlot) (now : datetime) :
  valid_slot slot ->
  exists occ,
    _get_next_occurrence slot now = Ok occ
    /\ now < occ
    /\ dt_weekday occ = day_of_week slot
    /\ dt_hour occ = hour slot
    /\ dt_minute occ = minute slot
    /\ dt_second occ = 0
    /\ dt_date now < dt_date occ <= dt_date now + 7
    /\ (forall d, dt_date now < d < dt_date occ -> date_weekday d <> day_of_week slot).
Proof.
  intros Hvalid.
  destruct (next_occurrence_fields slot now Hvalid)
    as (occ & Hocc & Hafter & Hwd & Hh & Hm & Hs & Hdays).
  exists occ. repeat split; try assumption; try lia.
  intros d Hd Hsame. rewrite <- Hwd in Hsame.
  unfold dt_weekday, date_weekday in Hsame.
  revert Hsame. generalize (dt_date occ) (dt_date now) Hd Hdays.
  intros o n Hd' Hdays'. Z.div_mod_to_equations. lia.
Qed.

Lemma next_occurrence_first_later_day_witness :
  exists occ,
    _get_next_occurrence reddit_tuesday_9am tuesday_0730 = Ok occ
    /\ tuesday_0730 < occ
    /\ dt_weekday occ = day_of_week reddit_tuesday_9am
    /\ dt_hour occ = hour reddit_tuesday_9am
    /\ dt_minute occ = minute reddit_tuesday_9am
    /\ dt_second occ = 0
    /\ dt_date tuesday_0730 < dt_date occ <= dt_date tuesday_0730 + 7
    /\ (forall d, dt_date tuesday_0730 < d < dt_date occ ->
          date_weekday d <> day_of_week reddit_tuesday_9am).
Proof.
  apply (next_occurrence_first_later_day reddit_tuesday_9am tuesday_0730).
  unfold valid_slot. simpl. lia.
Defined.



(** ** The walk out of the sleep window *)

Lemma dt_fields_shift (t : datetime) (k : Z) :
  dt_minute (t + timedelta_hours k) = dt_minute t
  /\ dt_second (t + timedelta_hours k) = dt_second t
  /\ dt_microsecond (t + timedelta_hours k) = dt_microsecond t.
Proof.
  unfold dt_minute, dt_second, dt_microsecond, timedelta_hours,
    US_PER_HOUR, US_PER_MINUTE, US_PER_SECOND.
  repeat split.
  - replace (t + k * (60 * (60 * 1000000))) with (t + (k * 60) * (60 * 1000000)) by lia.
    rewrite Z.div_add by lia.
    replace (t / (60 * 1000000) + k * 60) with (t / (60 * 1000000) + k * 60) by lia.
    rewrite Z.mod_add by lia. reflexivity.
  - replace (t + k * (60 * (60 * 1000000))) with (t + (k * 3600) * 1000000) by lia.
    rewrite Z.div_add by lia.
    replace (k * 3600) with ((k * 60) * 60) by lia.
    rewrite Z.mod_add by lia. reflexivity.
  - replace (t + k * (60 * (60 * 1000000))) with (t + (k * 3600) * 1000000) by lia.
    rewrite Z.mod_add by lia. reflexivity.
Qed.

Lemma dt_date_shift (t : datetime) (k : Z) :
  0 <= k -> dt_hour t + k < 24 -> dt_date (t + timedelta_hours k) = dt_date t.
Proof.
  unfold dt_date, dt_hour, timedelta_hours, US_PER_DAY, US_PER_HOUR, US_PER_MINUTE,
    US_PER_SECOND.
  intros Hk Hday. f_equal.
  change (24 * (60 * (60 * 1000000))) with 86400000000 in *.
  change (60 * (60 * 1000000)) with 3600000000 in *.
  Z.div_mod_to_equations. lia.
Qed.

(** X3. Started inside a sleep window that ends at 23:00 or earlier, the
    walk stops when the hour reaches [sleep_end]: it returns [now] plus
    [sleep_end - hour] whole hours, an instant of the same day at hour
    [sleep_end] with the minutes, seconds and microseconds of [now] (02:15:03
    becomes 06:15:03, not 06:00:00). Started outside the window it returns
    [now] itself. *)
Theorem fallback_wakes_at_sleep_end (fuel : nat) (self : IntelligentScheduler)
    (now : datetime) :
  (_is_sleep_time self now = true ->
   sleep_end self <= 23 ->
   (Z.to_nat (sleep_end self - dt_hour now) < fuel)%nat ->
   let wake := now + timedelta_hours (sleep_end self - dt_hour now) in
   _get_next_non_sleep_time fuel self now = Ok wake
   /\ _is_sleep_time self wake = false
   /\ dt_date wake = dt_date now
   /\ dt_hour wake = sleep_end self
   /\ dt_minute wake = dt_minute now
   /\ dt_second wake = dt_second now
   /\ dt_microsecond wake = dt_microsecond now)
  /\ (_is_sleep_time self now = false -> (0 < fuel)%nat ->
      _get_next_non_sleep_time fuel self now = Ok now).
Proof.
  split.
  - intros Hsleep Hend Hfuel. cbv zeta.
    apply is_sleep_time_iff in Hsleep. pose proof (dt_hour_range now) as Hrange.
    set (k := sleep_end self - dt_hour now) in *.
    assert (Hk : 0 < k) by (subst k; lia).
    assert (Hhour : dt_hour (now + timedelta_hours k) = sleep_end self).
    { rewrite dt_hour_shift. subst k.
      replace (dt_hour now + (sleep_end self - dt_hour now)) with (sleep_end self) by lia.
      apply Z.mod_small. lia. }
    assert (Hawake : _is_sleep_time self (now + timedelta_hours k) = false).
    { apply not_true_is_false. rewrite is_sleep_time_iff, Hhour. lia. }
    split; [|split; [exact Hawake | split; [|split; [exact Hhour | apply dt_fields_shift]]]].
    + unfold _get_next_non_sleep_time.
      rewrite (non_sleep_loop_first self (Z.to_nat k) now fuel Hfuel).
      * cbn [bind fst]. rewrite Z2Nat.id by lia. reflexivity.
      * intros i Hi. apply is_sleep_time_iff. rewrite dt_hour_shift.
        rewrite Z.mod_small by (subst k; lia). subst k. lia.
      * rewrite Z2Nat.id by lia. exact Hawake.
    + apply dt_date_shift; subst k; lia.
  - intros Hawake Hfuel. unfold _get_next_non_sleep_time.
    destruct fuel as [|fuel]; [lia|]. cbn [non_sleep_loop]. rewrite Hawake. reflexivity.
Qed.

Lemma fallback_wakes_at_sleep_end_witness :
  _get_next_non_sleep_time 7 init tuesday_0215 = Ok (mk_datetime 738887 6 15 3 9)
  /\ _get_next_non_sleep_time 1 init tuesday_0800 = Ok tuesday_0800.
Proof.
  split.
  - apply (proj1 (fallback_wakes_at_sleep_end 7 init tuesday_0215)).
    + vm_compute. reflexivity.
    + vm_compute. congruence.
    + vm_compute. lia.
  - apply (proj2 (fallback_wakes_at_sleep_end 1 init tuesday_0800)).
    + vm_compute. reflexivity.
    + lia.
Defined.

(** ** What no operation does *)

Lemma length_le_of_nth_error {A B : Type} (l1 : list A) (l2 : list B) :
  (forall i a, nth_error l1 i = Some a -> exists b, nth_error l2 i = Some b) ->
  (List.length l1 <= List.length l2)%nat.
Proof.
  intros Hall.
  destruct (Nat.le_gt_cases (List.length l1) (List.length l2)) as [Hle | Hgt];
    [exact Hle|].
  destruct (nth_error l1 (List.length l2)) as [a|] eqn:Ha.
  - destruct (Hall _ a Ha) as (b & Hb).
    assert (Hnone : nth_error l2 (List.length l2) = None)
      by (apply nth_error_None; lia).
    congruence.
  - apply nth_error_None in Ha. lia.
Qed.

Lemma default_slots_valid : Forall valid_slot _load_default_optimal_times.
Proof. repeat constructor; simpl; lia. Qed.

Lemma update_slot_Forall (P : OptimalTimeSlot -> Prop)
    (f : OptimalTimeSlot -> OptimalTimeSlot) (slots : list OptimalTimeSlot) :
  (forall slot, P slot -> P (f slot)) ->
  forall i, Forall P slots -> Forall P (update_slot i f slots).
Proof.
  intros Hf. induction slots as [|slot rest IH]; intros [|i] Hall;
    cbn [update_slot]; try constructor;
    try (apply Hf; exact (Forall_inv Hall)); try exact (Forall_inv Hall);
    try exact (Forall_inv_tail Hall).
  apply IH. exact (Forall_inv_tail Hall).
Qed.

Lemma update_engagement_data_valid (self : IntelligentScheduler) (target : string)
    (post_time : datetime) (score : float) :
  Forall valid_slot (optimal_times self) ->
  Forall valid_slot (optimal_times (update_engagement_data self target post_time score)).
Proof.
  intros Hvalid. unfold update_engagement_data. cbv zeta.
  destruct (find_existing_slot _ _ _ _) as [i|].
  - cbn [set_optimal_times optimal_times].
    apply update_slot_Forall; [|exact Hvalid]. intros slot Hslot. exact Hslot.
  - destruct (0.75 <? score)%float; [|exact Hvalid].
    cbn [set_optimal_times optimal_times]. apply Forall_app. split; [exact Hvalid|].
    constructor; [|constructor].
    unfold valid_slot. cbn [hour minute day_of_week].
    pose proof (dt_hour_range post_time). pose proof (dt_weekday_range post_time). lia.
Qed.

Lemma update_engagement_data_config (self : IntelligentScheduler) (target : string)
    (post_time : datetime) (score : float) :
  sleep_start (update_engagement_data self target post_time score) = sleep_start self
  /\ sleep_end (update_engagement_data self target post_time score) = sleep_end self
  /\ user_timezone (update_engagement_data self target post_time score)
     = user_timezone self.
Proof.
  unfold update_engagement_data. cbv zeta.
  destruct (find_existing_slot _ _ _ _); [repeat split|].
  destruct (0.75 <? score)%float; repeat split.
Qed.

(** Slot by slot, an engagement update keeps the identity fields. *)
Lemma update_engagement_data_slots (self : IntelligentScheduler) (target : string)
    (post_time : datetime) (score : float) (i : nat) (slot : OptimalTimeSlot) :
  nth_error (optimal_times self) i = Some slot ->
  exists slot',
    nth_error (optimal_times (update_engagement_data self target post_time score)) i
    = Some slot'
    /\ hour slot' = hour slot /\ minute slot' = minute slot
    /\ day_of_week slot' = day_of_week slot /\ platform slot' = platform slot.
Proof.
  intros Hslot. unfold update_engagement_data. cbv zeta.
  destruct (find_existing_slot _ _ _ _) as [j|].
  - cbn [set_optimal_times optimal_times]. rewrite nth_error_update_slot, Hslot.
    destruct (Nat.eqb i j); cbn [option_map]; eexists; (split; [reflexivity|]);
      repeat split; reflexivity.
  - destruct (0.75 <? score)%float.
    + cbn [set_optimal_times optimal_times]. exists slot.
      split; [|repeat split; reflexivity].
      rewrite nth_error_app1; [exact Hslot|]. apply nth_error_Some. congruence.
    + exists slot. split; [exact Hslot | repeat split; reflexivity].
Qed.

Lemma run_optimal_times (self : IntelligentScheduler) (op : operation) :
  optimal_times (run self op) = optimal_times self
  \/ exists target post_time score,
       run self op = update_engagement_data self target post_time score.
Proof.
  destruct op as [now | fuel content target preferred_time now created | now
                 | now publish | target post_time score]; cbn [run].
  - left. reflexivity.
  - destruct (schedule_post fuel self content target preferred_time now created)
      as [[entry self']| |] eqn:Hrun; try (left; reflexivity).
    apply schedule_post_appends in Hrun as [-> _]. left. reflexivity.
  - left. reflexivity.
  - left. reflexivity.
  - right. exists target, post_time, score. reflexivity.
Qed.

Lemma run_config (self : IntelligentScheduler) (op : operation) :
  sleep_start (run self op) = sleep_start self
  /\ sleep_end (run self op) = sleep_end self
  /\ user_timezone (run self op) = user_timezone self.
Proof.
  destruct op as [now | fuel content target preferred_time now created | now
                 | now publish | target post_time score]; cbn [run];
    try (repeat split; reflexivity).
  - destruct (schedule_post fuel self content target preferred_time now created)
      as [[entry self']| |] eqn:Hrun; try (repeat split; reflexivity).
    apply schedule_post_appends in Hrun as [-> _]. repeat split; reflexivity.
  - apply update_engagement_data_config.
Qed.

Lemma run_valid (self : IntelligentScheduler) (op : operation) :
  Forall valid_slot (optimal_times self) ->
  Forall valid_slot (optimal_times (run self op)).
Proof.
  intros Hvalid.
  destruct (run_optimal_times self op) as [-> | (target & post_time & score & ->)];
    [exact Hvalid | apply update_engagement_data_valid; exact Hvalid].
Qed.

Lemma run_all_config (ops : list operation) :
  forall self,
    sleep_start (run_all self ops) = sleep_start self
    /\ sleep_end (run_all self ops) = sleep_end self
    /\ user_timezone (run_all self ops) = user_timezone self.
Proof.
  induction ops as [|op ops IH]; intros self; [repeat split|].
  cbn [run_all fold_left]. fold (run_all (run self op) ops).
  destruct (IH (run self op)) as (-> & -> & ->). apply run_config.
Qed.

Lemma run_all_valid (ops : list operation) :
  forall self,
    Forall valid_slot (optimal_times self) ->
    Forall valid_slot (optimal_times (run_all self ops)).
Proof.
  induction ops as [|op ops IH]; intros self Hvalid; [exact Hvalid|].
  cbn [run_all fold_left]. fold (run_all (run self op) ops).
  apply IH, run_valid, Hvalid.
Qed.

Lemma run_slots (self : IntelligentScheduler) (op : operation) (i : nat)
    (slot : OptimalTimeSlot) :
  nth_error (optimal_times self) i = Some slot ->
  exists slot',
    nth_error (optimal_times (run self op)) i = Some slot'
    /\ hour slot' = hour slot /\ minute slot' = minute slot
    /\ day_of_week slot' = day_of_week slot /\ platform slot' = platform slot.
Proof.
  intros Hslot.
  destruct (run_optimal_times self op) as [-> | (target & post_time & score & ->)].
  - exists slot. split; [exact Hslot | repeat split; reflexivity].
  - apply update_engagement_data_slots. exact Hslot.
Qed.

Lemma run_all_slots (ops : list operation) :
  forall (self : IntelligentScheduler) (i : nat) (slot : OptimalTimeSlot),
    nth_error (optimal_times self) i = Some slot ->
    exists slot',
      nth_error (optimal_times (run_all self ops)) i = Some slot'
      /\ hour slot' = hour slot /\ minute slot' = minute slot
      /\ day_of_week slot' = day_of_week slot /\ platform slot' = platform slot.
Proof.
  induction ops as [|op ops IH]; intros self i slot Hslot.
  - exists slot. split; [exact Hslot | repeat split; reflexivity].
  - cbn [run_all fold_left]. fold (run_all (run self op) ops).
    destruct (run_slots self op i slot Hslot) as (mid & Hmid & Hh & Hm & Hd & Hp).
    destruct (IH (run self op) i mid Hmid) as (slot' & Hslot' & Hh' & Hm' & Hd' & Hp').
    exists slot'. split; [exact Hslot'|]. repeat split; congruence.
Qed.

(** X4. Whatever operations are run, in whatever order: the sleep window and
    the zone of the scheduler stay as they were; a catalog of well-formed
    slots stays one; every slot keeps its position, hour, minute, weekday
    and platform (only scores change); every schedule entry keeps its
    position; so neither list ever gets shorter. *)
Theorem operations_keep_configuration_and_slots (self : IntelligentScheduler)
    (ops : list operation) :
  sleep_start (run_all self ops) = sleep_start self
  /\ sleep_end (run_all self ops) = sleep_end self
  /\ user_timezone (run_all self ops) = user_timezone self
  /\ (Forall valid_slot (optimal_times self) ->
      Forall valid_slot (optimal_times (run_all self ops)))
  /\ (forall i slot,
        nth_error (optimal_times self) i = Some slot ->
        exists slot',
          nth_error (optimal_times (run_all self ops)) i = Some slot'
          /\ hour slot' = hour slot /\ minute slot' = minute slot
          /\ day_of_week slot' = day_of_week slot /\ platform slot' = platform slot)
  /\ (List.length (optimal_times self) <= List.length (optimal_times (run_all self ops)))%nat
  /\ (List.length (scheduled_posts self)
      <= List.length (scheduled_posts (run_all self ops)))%nat.
Proof.
  pose proof run_all_slots as Hslots.
  destruct (run_all_config ops self) as (Hs & He & Hz).
  split; [exact Hs|]. split; [exact He|]. split; [exact Hz|].
  split; [apply run_all_valid|]. split; [apply Hslots|]. split.
  - apply length_le_of_nth_error. intros i slot Hslot.
    destruct (Hslots ops self i slot Hslot) as (slot' & Hslot' & _).
    exists slot'. exact Hslot'.
  - apply length_le_of_nth_error. intros i post Hpost.
    destruct (run_all_evolves ops self i post Hpost) as (post' & Hpost' & _).
    exists post'. exact Hpost'.
Qed.

(** ** The sleep filter of the optimized schedule *)

Lemma occurrence_sleep_by_hour (self : IntelligentScheduler) (now occ : datetime)
    (slot : OptimalTimeSlot) :
  valid_slot slot -> _get_next_occurrence slot now = Ok occ ->
  now < occ
  /\ (_is_sleep_time self occ = true <-> sleep_start self <= hour slot < sleep_end self).
Proof.
  intros Hvalid Hocc.
  destruct (next_occurrence_fields slot now Hvalid) as (occ' & Hocc' & Hafter & _ & Hh & _).
  assert (occ' = occ) by congruence. subst occ'.
  split; [exact Hafter|]. rewrite is_sleep_time_iff, Hh. tauto.
Qed.

Lemma survivors_length (self : IntelligentScheduler) (now : datetime)
    (slots : list OptimalTimeSlot) :
  Forall valid_slot slots ->
  List.length (survivors self now slots)
  = List.length
      (filter (fun slot => negb ((sleep_start self <=? hour slot)
                                 && (hour slot <? sleep_end self))) slots).
Proof.
  induction 1 as [|slot rest Hvalid Hrest IH]; [reflexivity|].
  unfold survivors. cbn [flat_map filter]. fold (survivors self now rest).
  rewrite length_app, IH.
  destruct (next_occurrence_fields slot now Hvalid) as (occ & Hocc & _ & _ & Hh & _).
  rewrite Hocc. unfold _is_sleep_time. cbv zeta. rewrite Hh.
  destruct ((sleep_start self <=? hour slot) && (hour slot <? sleep_end self));
    reflexivity.
Qed.

(** X5. For a catalog of well-formed slots the optimized schedule holds
    exactly one entry for each slot whose hour lies outside the sleep
    window and none for the others: every entry comes from such a slot, at
    an occurrence strictly after now, and every such slot has its entry. *)
Theorem optimized_schedule_respects_window (self : IntelligentScheduler)
    (now : datetime) :
  Forall valid_slot (optimal_times self) ->
  exists r,
    optimize_schedule self now = Ok r
    /\ (forall item, In item (optimal_schedule r) ->
          exists slot occ,
            In slot (optimal_times self)
            /\ _get_next_occurrence slot now = Ok occ
            /\ item = schedule_item slot occ
            /\ ~ (sleep_start self <= hour slot < sleep_end self)
            /\ now < occ)
    /\ (forall slot,
          In slot (optimal_times self) ->
          ~ (sleep_start self <= hour slot < sleep_end self) ->
          exists occ,
            _get_next_occurrence slot now = Ok occ
            /\ In (schedule_item slot occ) (optimal_schedule r))
    /\ List.length (optimal_schedule r)
       = List.length
           (filter (fun slot => negb ((sleep_start self <=? hour slot)
                                      && (hour slot <? sleep_end self)))
              (optimal_times self)).
Proof.
  intros Hvalid. pose proof Hvalid as Hall. rewrite Forall_forall in Hall.
  unfold optimize_schedule.
  rewrite optimize_loop_survivors.
  2:{ intros slot Hin.
      destruct (next_occurrence_fields slot now (Hall slot Hin)) as (occ & Hocc & _).
      exists occ. exact Hocc. }
  cbn [bind app]. eexists. split; [reflexivity|]. cbn [optimal_schedule].
  set (unsorted := map survivor_item (survivors self now (optimal_times self))).
  pose proof (list_sort_perm item_engagement_score PrimFloat.ltb true unsorted) as Hperm.
  split; [|split].
  - intros item Hitem. apply (Permutation_in _ (Permutation_sym Hperm)) in Hitem.
    apply in_map_iff in Hitem as ([slot occ] & <- & Hin).
    apply In_survivors in Hin as (Hin & Hocc & Hawake).
    exists slot, occ. split; [exact Hin|]. split; [exact Hocc|]. split; [reflexivity|].
    destruct (occurrence_sleep_by_hour self now occ slot (Hall slot Hin) Hocc)
      as (Hafter & Hsleep).
    split; [|exact Hafter]. intros Hwin. apply Hsleep in Hwin. congruence.
  - intros slot Hin Hout.
    destruct (next_occurrence_fields slot now (Hall slot Hin)) as (occ & Hocc & _).
    exists occ. split; [exact Hocc|]. apply (Permutation_in _ Hperm).
    apply in_map_iff. exists (slot, occ). split; [reflexivity|].
    apply In_survivors. split; [exact Hin|]. split; [exact Hocc|].
    apply not_true_is_false. intros Hsleep. apply Hout.
    apply (occurrence_sleep_by_hour self now occ slot (Hall slot Hin) Hocc). exact Hsleep.
  - rewrite <- (Permutation_length Hperm). subst unsorted.
    rewrite length_map. apply survivors_length. exact Hvalid.
Qed.

Lemma optimized_schedule_respects_window_witness :
  exists r,
    optimize_schedule init tuesday_0730 = Ok r
    /\ (forall item, In item (optimal_schedule r) ->
          exists slot occ,
            In slot (optimal_times init)
            /\ _get_next_occurrence slot tuesday_0730 = Ok occ
            /\ item = schedule_item slot occ
            /\ ~ (sleep_start init <= hour slot < sleep_end init)
            /\ tuesday_0730 < occ)
    /\ (forall slot,
          In slot (optimal_times init) ->
          ~ (sleep_start init <= hour slot < sleep_end init) ->
          exists occ,
            _get_next_occurrence slot tuesday_0730 = Ok occ
            /\ In (schedule_item slot occ) (optimal_schedule r))
    /\ List.length (optimal_schedule r)
       = List.length
           (filter (fun slot => negb ((sleep_start init <=? hour slot)
                                      && (hour slot <? sleep_end init)))
              (optimal_times init)).
Proof.
  apply (optimized_schedule_respects_window init tuesday_0730).
  exact default_slots_valid.
Defined.

(** X6. In every state the scheduler can reach from its construction,
    [optimize_schedule] returns normally, reports the window from 00:00 to
    06:00, and lists at least one entry, so that [next_post_time] is never
    [None]. *)
Theorem optimize_schedule_after_any_operations (ops : list operation)
    (now : datetime) :
  exists r first rest,
    optimize_schedule (run_all init ops) now = Ok r
    /\ sleep_period r = "00:00 - 06:00"
    /\ optimal_schedule r = first :: rest
    /\ next_post_time r = Some (time first).
Proof.
  set (self := run_all init ops).
  destruct (run_all_config ops init) as (Hs & He & Hz). fold self in Hs, He, Hz.
  assert (Hvalid : Forall valid_slot (optimal_times self))
    by (apply run_all_valid; exact default_slots_valid).
  pose proof Hvalid as Hall. rewrite Forall_forall in Hall.
  destruct (run_all_slots ops init O reddit_tuesday_9am eq_refl)
    as (slot & Hslot & Hh & _). fold self in Hslot.
  assert (Hin : In slot (optimal_times self)) by (eapply nth_error_In; exact Hslot).
  destruct (next_occurrence_fields slot now (Hall slot Hin)) as (occ & Hocc & _).
  assert (Hsurv : In (slot, occ) (survivors self now (optimal_times self))).
  { apply In_survivors. split; [exact Hin|]. split; [exact Hocc|].
    apply not_true_is_false. intros Hsleep.
    apply (occurrence_sleep_by_hour self now occ slot (Hall slot Hin) Hocc) in Hsleep.
    rewrite Hs, He, Hh in Hsleep. cbn in Hsleep. lia. }
  unfold optimize_schedule.
  rewrite optimize_loop_survivors.
  2:{ intros s Hs'.
      destruct (next_occurrence_fields s now (Hall s Hs')) as (o & Ho & _).
      exists o. exact Ho. }
  cbn [bind app].
  set (unsorted := map survivor_item (survivors self now (optimal_times self))).
  pose proof (list_sort_perm item_engagement_score PrimFloat.ltb true unsorted) as Hperm.
  destruct (list_sort item_engagement_score PrimFloat.ltb true unsorted)
    as [|first rest] eqn:Hsorted.
  - exfalso. apply Permutation_sym, Permutation_nil in Hperm.
    assert (Hitem : In (survivor_item (slot, occ)) unsorted)
      by (apply in_map; exact Hsurv).
    rewrite Hperm in Hitem. destruct Hitem.
  - eexists. exists first, rest. split; [reflexivity|].
    cbn [sleep_period optimal_schedule next_post_time].
    rewrite Hs, He. repeat split.
Qed.

(** ** The slot chosen for a post *)

Lemma find_loop_survivors (self : IntelligentScheduler) (now : datetime)
    (slots : list OptimalTimeSlot) :
  forall next_slots,
    (forall slot, In slot slots -> exists occ, _get_next_occurrence slot now = Ok occ) ->
    find_loop self now slots next_slots
    = Ok (next_slots
          ++ map (fun p => (snd p, engagement_score (fst p))) (survivors self now slots))%list.
Proof.
  induction slots as [|slot rest IH]; intros next_slots Hok.
  - cbn. rewrite app_nil_r. reflexivity.
  - destruct (Hok slot (or_introl eq_refl)) as (occ & Hocc).
    cbn [find_loop]. rewrite Hocc. cbn [bind].
    rewrite IH by (intros s Hs; apply Hok; right; exact Hs).
    unfold survivors at 2. cbn [flat_map]. rewrite Hocc.
    fold (survivors self now rest).
    destruct (_is_sleep_time self occ); cbn [negb].
    + reflexivity.
    + rewrite <- app_assoc. reflexivity.
Qed.

(** The two ways out of [_find_next_optimal_slot] for a catalog of
    well-formed slots. *)
Lemma find_next_optimal_slot_cases (fuel : nat) (self : IntelligentScheduler)
    (target : string) (now : datetime) :
  Forall valid_slot (optimal_times self) ->
  (platform_survivors self target now = []
   /\ _find_next_optimal_slot fuel self target now
      = _get_next_non_sleep_time fuel self now)
  \/ (exists best rest,
        list_sort snd PrimFloat.ltb true
          (map (fun p => (snd p, engagement_score (fst p)))
             (platform_survivors self target now))
        = best :: rest
        /\ _find_next_optimal_slot fuel self target now = Ok (fst best)).
Proof.
  intros Hvalid. rewrite Forall_forall in Hvalid.
  unfold _find_next_optimal_slot, platform_survivors. cbv zeta.
  set (platform_slots :=
         filter (fun slot => String.eqb (platform slot) target) (optimal_times self)).
  assert (Hok : forall slot, In slot platform_slots ->
                  exists occ, _get_next_occurrence slot now = Ok occ).
  { intros slot Hin. apply filter_In in Hin as [Hin _].
    destruct (next_occurrence_fields slot now (Hvalid slot Hin)) as (occ & Hocc & _).
    exists occ. exact Hocc. }
  destruct platform_slots as [|slot rest] eqn:Hslots; [left; split; reflexivity|].
  rewrite find_loop_survivors by exact Hok. cbn [bind app].
  set (next_slots := map (fun p => (snd p, engagement_score (fst p)))
                       (survivors self now (slot :: rest))).
  destruct next_slots as [|pair pairs] eqn:Hnext.
  - left. split; [|reflexivity].
    subst next_slots. apply map_eq_nil in Hnext. exact Hnext.
  - right. rewrite <- Hnext.
    pose proof (list_sort_perm (@snd datetime float) PrimFloat.ltb true next_slots) as Hperm.
    destruct (list_sort snd PrimFloat.ltb true next_slots) as [|best others] eqn:Hsorted.
    + apply Permutation_sym, Permutation_nil in Hperm. congruence.
    + exists best, others. split; reflexivity.
Qed.

Lemma In_platform_survivors (self : IntelligentScheduler) (target : string)
    (now : datetime) (slot : OptimalTimeSlot) (occ : datetime) :
  In (slot, occ) (platform_survivors self target now)
  <-> In slot (optimal_times self) /\ platform slot = target
      /\ _get_next_occurrence slot now = Ok occ /\ _is_sleep_time self occ = false.
Proof.
  unfold platform_survivors. rewrite In_survivors, filter_In, String.eqb_eq. tauto.
Qed.

(** X7. When the catalog (of well-formed slots, with numbers as scores)
    holds a slot of the platform whose hour is outside the sleep window,
    [_find_next_optimal_slot] returns, whatever the fuel, the next
    occurrence of such a slot: an instant strictly after now and outside
    the window, whose slot has a score no surviving slot of the platform
    exceeds. The nearest occurrence plays no part. *)
Theorem find_next_optimal_slot_picks_best (self : IntelligentScheduler)
    (target : string) (now : datetime) :
  Forall valid_slot (optimal_times self) ->
  Forall (fun slot => is_nan (engagement_score slot) = false) (optimal_times self) ->
  (exists slot, In slot (optimal_times self) /\ platform slot = target
                /\ ~ (sleep_start self <= hour slot < sleep_end self)) ->
  exists best occ,
    In best (optimal_times self)
    /\ platform best = target
    /\ _get_next_occurrence best now = Ok occ
    /\ (forall fuel, _find_next_optimal_slot fuel self target now = Ok occ)
    /\ now < occ
    /\ _is_sleep_time self occ = false
    /\ forall slot,
         In slot (optimal_times self) -> platform slot = target ->
         ~ (sleep_start self <= hour slot < sleep_end self) ->
         (engagement_score slot <=? engagement_score best)%float = true.
Proof.
  intros Hvalid Hnum (some & Hsome & Hplat & Hout).
  pose proof Hvalid as Hall. rewrite Forall_forall in Hall.
  rewrite Forall_forall in Hnum.
  assert (Hsurvives : forall slot, In slot (optimal_times self) -> platform slot = target ->
            ~ (sleep_start self <= hour slot < sleep_end self) ->
            exists occ, In (slot, occ) (platform_survivors self target now)).
  { intros slot Hin Hp Hw.
    destruct (next_occurrence_fields slot now (Hall slot Hin)) as (occ & Hocc & _).
    exists occ. apply In_platform_survivors. repeat split; try assumption.
    apply not_true_is_false. intros Hsleep. apply Hw.
    apply (occurrence_sleep_by_hour self now occ slot (Hall slot Hin) Hocc). exact Hsleep. }
  set (pairs := map (fun p : OptimalTimeSlot * datetime => (snd p, engagement_score (fst p)))
                  (platform_survivors self target now)).
  pose proof (list_sort_perm (@snd datetime float) PrimFloat.ltb true pairs) as Hperm.
  assert (Hsorted : StronglySorted (fun a b => (snd a <? snd b)%float = false)
                      (list_sort snd PrimFloat.ltb true pairs)).
  { apply (list_sort_reverse_sorted (@snd datetime float) PrimFloat.ltb
             (fun x => is_nan x = false)).
    - exact float_ltb_asym.
    - exact float_ltb_negtrans.
    - apply Forall_forall. intros pair Hpair.
      apply in_map_iff in Hpair as ([slot occ] & <- & Hin).
      apply In_platform_survivors in Hin as (Hin & _). exact (Hnum slot Hin). }
  destruct (find_next_optimal_slot_cases O self target now Hvalid)
    as [[Hnil _] | (best & rest & Hbest & _)].
  { destruct (Hsurvives some Hsome Hplat Hout) as (occ & Hocc).
    rewrite Hnil in Hocc. destruct Hocc. }
  fold pairs in Hbest. rewrite Hbest in Hperm, Hsorted.
  assert (Hin : In best pairs)
    by (apply (Permutation_in _ (Permutation_sym Hperm)); left; reflexivity).
  apply in_map_iff in Hin as ([slot occ] & Hpair & Hin).
  pose proof Hin as Hsurv.
  apply In_platform_survivors in Hin as (Hin & Hp & Hocc & Hawake).
  exists slot, occ. split; [exact Hin|]. split; [exact Hp|]. split; [exact Hocc|].
  split; [|split; [|split; [exact Hawake|]]].
  - intros fuel.
    destruct (find_next_optimal_slot_cases fuel self target now Hvalid)
      as [[Hnil _] | (best' & rest' & Hbest' & Hfind)].
    + rewrite Hnil in Hsurv. destruct Hsurv.
    + fold pairs in Hbest'. rewrite Hbest in Hbest'. injection Hbest' as <- <-.
      rewrite Hfind, <- Hpair. reflexivity.
  - apply (occurrence_sleep_by_hour self now occ slot (Hall slot Hin) Hocc).
  - intros slot' Hin' Hp' Hw'.
    destruct (Hsurvives slot' Hin' Hp' Hw') as (occ' & Hocc').
    assert (Hpair' : In (occ', engagement_score slot') (best :: rest)).
    { apply (Permutation_in _ Hperm). apply in_map_iff.
      exists (slot', occ'). split; [reflexivity | exact Hocc']. }
    apply float_not_ltb_leb; [exact (Hnum slot Hin) | exact (Hnum slot' Hin') |].
    apply StronglySorted_inv in Hsorted as [_ Hhead]. rewrite Forall_forall in Hhead.
    rewrite <- Hpair in *. cbn [snd fst] in *.
    destruct Hpair' as [Hsame | Hrest].
    + injection Hsame as _ Hscore. rewrite <- Hscore.
      destruct (engagement_score slot <? engagement_score slot)%float eqn:Hlt;
        [|reflexivity].
      rewrite (float_ltb_asym _ _ Hlt) in Hlt. discriminate.
    + exact (Hhead _ Hrest).
Qed.

Lemma find_next_optimal_slot_picks_best_witness :
  exists best occ,
    In best (optimal_times init)
    /\ platform best = "discord"
    /\ _get_next_occurrence best tuesday_0730 = Ok occ
    /\ (forall fuel, _find_next_optimal_slot fuel init "discord" tuesday_0730 = Ok occ)
    /\ tuesday_0730 < occ
    /\ _is_sleep_time init occ = false
    /\ forall slot,
         In slot (optimal_times init) -> platform slot = "discord" ->
         ~ (sleep_start init <= hour slot < sleep_end init) ->
         (engagement_score slot <=? engagement_score best)%float = true.
Proof.
  apply (find_next_optimal_slot_picks_best init "discord" tuesday_0730).
  - exact default_slots_valid.
  - repeat constructor.
  - exists (mkOptimalTimeSlot 20 0 4 0.88 "discord"). split; [simpl; tauto|].
    split; [reflexivity|]. simpl. lia.
Defined.

(** X8. For a catalog of well-formed slots and a sleep window that leaves
    some hour of the day outside it, [schedule_post] without a preferred
    time returns normally (24 units of fuel are enough); the entry it
    appends is pending, carries the content, the platform and the creation
    instant given, and is scheduled at or after now, never inside the sleep
    window. *)
Theorem schedule_post_avoids_sleep_window (fuel : nat) (self : IntelligentScheduler)
    (content target : string) (now created : datetime) :
  Forall valid_slot (optimal_times self) ->
  (exists h, 0 <= h < 24 /\ ~ (sleep_start self <= h < sleep_end self)) ->
  (24 <= fuel)%nat ->
  exists entry,
    schedule_post fuel self content target None now created
    = Ok (entry, set_scheduled_posts self (scheduled_posts self ++ [entry]))
    /\ _is_sleep_time self (scheduled_time entry) = false
    /\ now <= scheduled_time entry
    /\ status entry = "pending"
    /\ content_id entry = content
    /\ entry_platform entry = target
    /\ created_at entry = created.
Proof.
  intros Hvalid (h & Hh & Hout) Hfuel.
  assert (Hfound : exists t, _find_next_optimal_slot fuel self target now = Ok t
                             /\ _is_sleep_time self t = false /\ now <= t).
  { destruct (find_next_optimal_slot_cases fuel self target now Hvalid)
      as [[_ ->] | (best & rest & Hbest & ->)].
    - destruct (awake_within_a_day self now h Hh Hout) as (j & Hj & Hawake).
      destruct (first_awake_step self 24 now) as (k & Hk & Hbefore & Hstop).
      { exists j. split; assumption. }
      exists (now + timedelta_hours (Z.of_nat k)).
      unfold _get_next_non_sleep_time.
      rewrite (non_sleep_loop_first self k now fuel) by (assumption || lia).
      split; [reflexivity|]. split; [exact Hstop|].
      unfold timedelta_hours, US_PER_HOUR, US_PER_MINUTE, US_PER_SECOND. lia.
    - exists (fst best). split; [reflexivity|].
      assert (Hin : In best (map (fun p : OptimalTimeSlot * datetime =>
                                    (snd p, engagement_score (fst p)))
                               (platform_survivors self target now))).
      { apply (Permutation_in _ (Permutation_sym (list_sort_perm snd PrimFloat.ltb true _))).
        rewrite Hbest. left. reflexivity. }
      apply in_map_iff in Hin as ([slot occ] & <- & Hin).
      apply In_platform_survivors in Hin as (Hin & _ & Hocc & Hawake).
      cbn [fst snd]. split; [exact Hawake|].
      rewrite Forall_forall in Hvalid.
      pose proof (occurrence_sleep_by_hour self now occ slot (Hvalid slot Hin) Hocc). lia. }
  destruct Hfound as (t & Hfind & Hawake & Hafter).
  unfold schedule_post. rewrite Hfind. cbn [bind].
  eexists. split; [reflexivity|]. cbn. repeat split; assumption.
Qed.

Lemma schedule_post_avoids_sleep_window_witness :
  exists entry,
    schedule_post 24 init "post-1" "mastodon" None tuesday_0215 tuesday_0215
    = Ok (entry, set_scheduled_posts init (scheduled_posts init ++ [entry]))
    /\ _is_sleep_time init (scheduled_time entry) = false
    /\ tuesday_0215 <= scheduled_time entry
    /\ status entry = "pending"
    /\ content_id entry = "post-1"
    /\ entry_platform entry = "mastodon"
    /\ created_at entry = tuesday_0215.
Proof.
  apply (schedule_post_avoids_sleep_window 24 init "post-1" "mastodon"
           tuesday_0215 tuesday_0215).
  - exact default_slots_valid.
  - exists 6. simpl. lia.
  - lia.
Defined.

(** ** Scheduling, sweeping and listing together *)

Lemma firstn_all_short {A : Type} (n : nat) (l : list A) :
  (List.length l <= n)%nat -> firstn n l = l.
Proof.
  revert n. induction l as [|x l IH]; intros [|n] Hlen; cbn in *; try reflexivity;
    try lia. rewrite IH by lia. reflexivity.
Qed.

(** X9. A post scheduled with a preferred time [t] gets exactly that time,
    whatever the clock, the sleep window and the catalog; and a projection
    of upcoming posts taken before [t] returns the new entry, together with
    all it returned before, as long as fewer than ten pending future
    entries were there already. *)
Theorem scheduled_post_is_listed (fuel : nat) (self : IntelligentScheduler)
    (content target : string) (t now created now' : datetime) :
  now' < t ->
  (List.length (filter (is_upcoming now') (scheduled_posts self)) < 10)%nat ->
  exists entry,
    let self' := set_scheduled_posts self (scheduled_posts self ++ [entry]) in
    schedule_post fuel self content target (Some t) now created = Ok (entry, self')
    /\ scheduled_time entry = t
    /\ In entry (fst (get_upcoming_posts self' now'))
    /\ (forall post, In post (fst (get_upcoming_posts self now')) ->
          In post (fst (get_upcoming_posts self' now')))
    /\ List.length (fst (get_upcoming_posts self' now'))
       = S (List.length (fst (get_upcoming_posts self now'))).
Proof.
  intros Hbefore Hroom. unfold schedule_post. cbn [bind].
  eexists. cbv zeta. split; [reflexivity|]. split; [reflexivity|].
  set (entry := mkScheduleEntry _ content target t "pending" created).
  assert (Hup : is_upcoming now' entry = true)
    by (apply is_upcoming_iff; split; [exact Hbefore | reflexivity]).
  unfold get_upcoming_posts. cbv zeta. cbn [fst set_scheduled_posts scheduled_posts].
  rewrite !map_asdict. fold (is_upcoming now').
  rewrite filter_app. cbn [filter]. rewrite Hup.
  set (old := filter (is_upcoming now') (scheduled_posts self)) in *.
  pose proof (list_sort_perm scheduled_time Z.ltb false (old ++ [entry])) as Hnew.
  pose proof (list_sort_perm scheduled_time Z.ltb false old) as Hold.
  rewrite firstn_all_short
    by (rewrite <- (Permutation_length Hnew), length_app; cbn [List.length]; lia).
  rewrite firstn_all_short by (rewrite <- (Permutation_length Hold); lia).
  split; [|split].
  - apply (Permutation_in _ Hnew). apply in_or_app. right. left. reflexivity.
  - intros post Hpost. apply (Permutation_in _ Hnew). apply in_or_app. left.
    apply (Permutation_in _ (Permutation_sym Hold)). exact Hpost.
  - rewrite <- (Permutation_length Hnew), <- (Permutation_length Hold), length_app.
    cbn [List.length]. lia.
Qed.

Lemma scheduled_post_is_listed_witness :
  exists entry,
    let self' := set_scheduled_posts init (scheduled_posts init ++ [entry]) in
    schedule_post 0 init "post-1" "reddit" (Some tuesday_0215) tuesday_0800 tuesday_0800
    = Ok (entry, self')
    /\ scheduled_time entry = tuesday_0215
    /\ In entry (fst (get_upcoming_posts self' 0))
    /\ (forall post, In post (fst (get_upcoming_posts init 0)) ->
          In post (fst (get_upcoming_posts self' 0)))
    /\ List.length (fst (get_upcoming_posts self' 0))
       = S (List.length (fst (get_upcoming_posts init 0))).
Proof.
  apply (scheduled_post_is_listed 0 init "post-1" "reddit" tuesday_0215
           tuesday_0800 tuesday_0800 0).
  - vm_compute. reflexivity.
  - simpl. lia.
Defined.

Lemma set_scheduled_posts_twice (self : IntelligentScheduler)
    (posts posts' : list ScheduleEntry) :
  set_scheduled_posts (set_scheduled_posts self posts) posts'
  = set_scheduled_posts self posts'.
Proof. reflexivity. Qed.

Lemma process_post_posts (self : IntelligentScheduler) (posts : list ScheduleEntry)
    (now : datetime) (publish : ScheduleEntry -> bool) (post : ScheduleEntry) :
  process_post (set_scheduled_posts self posts) now publish post
  = process_post self now publish post.
Proof. reflexivity. Qed.

Lemma process_post_settled (self : IntelligentScheduler) (now : datetime)
    (publish publish' : ScheduleEntry -> bool) (post : ScheduleEntry) :
  process_post self now publish' (process_post self now publish post)
  = process_post self now publish post.
Proof.
  destruct (process_post_cases self now publish post)
    as [[Hsame Hwhy] | (Hp & Hdue & Hawake & Hdone)].
  - rewrite Hsame.
    destruct (process_post_cases self now publish' post)
      as [[Hsame' _] | (Hp' & Hdue' & Hawake' & _)]; [exact Hsame'|].
    destruct Hwhy as [H | [H | H]]; [contradiction | lia | congruence].
  - rewrite Hdone.
    destruct (process_post_cases self now publish'
                (set_status post (if publish post then "posted" else "failed")))
      as [[Hsame' _] | (Hp' & _)]; [exact Hsame'|].
    destruct (publish post); cbn in Hp'; discriminate.
Qed.

Lemma is_due_posts (self : IntelligentScheduler) (posts : list ScheduleEntry)
    (now : datetime) (post : ScheduleEntry) :
  is_due (set_scheduled_posts self posts) now post = is_due self now post.
Proof. reflexivity. Qed.

Lemma is_due_iff (self : IntelligentScheduler) (now : datetime) (post : ScheduleEntry) :
  is_due self now post = true
  <-> status post = "pending" /\ scheduled_time post <= now
      /\ _is_sleep_time self now = false.
Proof.
  unfold is_due. rewrite !andb_true_iff, String.eqb_eq, Z.leb_le, negb_true_iff. tauto.
Qed.

Lemma sweep_loop_posts (self : IntelligentScheduler) (posts' : list ScheduleEntry)
    (now : datetime) (outcome : ScheduleEntry -> attempt) (posts : list ScheduleEntry) :
  sweep_loop (set_scheduled_posts self posts') now outcome posts
  = sweep_loop self now outcome posts.
Proof.
  induction posts as [|post rest IH]; [reflexivity|].
  cbn [sweep_loop]. rewrite is_due_posts, IH. reflexivity.
Qed.

Lemma sweep_loop_length (self : IntelligentScheduler) (now : datetime)
    (outcome : ScheduleEntry -> attempt) (posts : list ScheduleEntry) :
  List.length (fst (sweep_loop self now outcome posts)) = List.length posts.
Proof.
  induction posts as [|post rest IH]; [reflexivity|].
  cbn [sweep_loop].
  destruct (is_due self now post); [destruct (outcome post)|];
    cbn [fst List.length]; rewrite ?IH; reflexivity.
Qed.

(** A sweep that ends normally leaves no entry for a later one. *)
Lemma sweep_loop_settles (self : IntelligentScheduler) (now : datetime)
    (outcome : ScheduleEntry -> attempt) (posts : list ScheduleEntry) :
  snd (sweep_loop self now outcome posts) = false ->
  forall post, In post (fst (sweep_loop self now outcome posts)) ->
    is_due self now post = false.
Proof.
  induction posts as [|post rest IH]; intros Hdone p Hin; [destruct Hin|].
  cbn [sweep_loop] in Hdone, Hin.
  destruct (is_due self now post) eqn:Hdue; [destruct (outcome post)|];
    cbn [fst snd] in Hdone, Hin; try discriminate;
    (destruct Hin as [<- | Hin]; [|apply IH; assumption]);
    try exact Hdue; unfold is_due; reflexivity.
Qed.

Lemma sweep_loop_nothing_due (self : IntelligentScheduler) (now : datetime)
    (outcome : ScheduleEntry -> attempt) (posts : list ScheduleEntry) :
  (forall post, In post posts -> is_due self now post = false) ->
  sweep_loop self now outcome posts = (posts, false).
Proof.
  induction posts as [|post rest IH]; intros Hnone; [reflexivity|].
  cbn [sweep_loop]. rewrite (Hnone post (or_introl eq_refl)).
  rewrite IH by (intros p Hp; apply Hnone; right; exact Hp). reflexivity.
Qed.

(** When the handler never raises, the sweep is the one of
    [process_scheduled_posts]. *)
Lemma sweep_loop_handled (self : IntelligentScheduler) (now : datetime)
    (outcome : ScheduleEntry -> attempt) (posts : list ScheduleEntry) :
  (forall post, In post posts -> outcome post <> HandlerRaised) ->
  sweep_loop self now outcome posts
  = (map (process_post self now
            (fun post => match outcome post with Posted => true | _ => false end))
       posts, false).
Proof.
  induction posts as [|post rest IH]; intros Hhandled; [reflexivity|].
  cbn [sweep_loop map]. rewrite IH by (intros p Hp; apply Hhandled; right; exact Hp).
  cbn [fst snd].
  pose proof (Hhandled post (or_introl eq_refl)) as Hpost.
  assert (Hhead : process_post self now
                    (fun post => match outcome post with Posted => true | _ => false end)
                    post
                  = if is_due self now post
                    then match outcome post with
                         | Posted => set_status post "posted"
                         | _ => set_status post "failed"
                         end
                    else post).
  { unfold process_post. fold (is_due self now post).
    destruct (is_due self now post); [|reflexivity].
    destruct (outcome post); reflexivity. }
  rewrite Hhead.
  destruct (is_due self now post); [|reflexivity].
  destruct (outcome post); [reflexivity | reflexivity | contradiction].
Qed.

(** A sweep that raises stopped at a due entry, which it left pending
    together with all the entries after it. *)
Lemma sweep_loop_raised (self : IntelligentScheduler) (now : datetime)
    (outcome : ScheduleEntry -> attempt) (posts : list ScheduleEntry) :
  snd (sweep_loop self now outcome posts) = true ->
  exists before before' post rest,
    posts = (before ++ post :: rest)%list
    /\ fst (sweep_loop self now outcome posts) = (before' ++ post :: rest)%list
    /\ List.length before' = List.length before
    /\ is_due self now post = true
    /\ outcome post = HandlerRaised.
Proof.
  induction posts as [|post rest IH]; intros Hraised; [discriminate|].
  cbn [sweep_loop] in *.
  destruct (is_due self now post) eqn:Hdue; [destruct (outcome post) eqn:Hout|];
    cbn [fst snd] in *.
  - destruct (IH Hraised) as (b & b' & p & r & -> & Hfst & Hlen & Hp & Ho).
    exists (post :: b), (set_status post "posted" :: b'), p, r.
    rewrite Hfst. cbn [app List.length]. rewrite Hlen. repeat split; assumption.
  - destruct (IH Hraised) as (b & b' & p & r & -> & Hfst & Hlen & Hp & Ho).
    exists (post :: b), (set_status post "failed" :: b'), p, r.
    rewrite Hfst. cbn [app List.length]. rewrite Hlen. repeat split; assumption.
  - exists [], [], post, rest. repeat split; assumption.
  - destruct (IH Hraised) as (b & b' & p & r & -> & Hfst & Hlen & Hp & Ho).
    exists (post :: b), (post :: b'), p, r.
    rewrite Hfst. cbn [app List.length]. rewrite Hlen. repeat split; assumption.
Qed.

(** X10. A sweep that ends normally outside the sleep window leaves no entry
    both pending and due, and any further sweep at the same instant then
    changes nothing and ends normally: entries marked failed are not tried
    again. A sweep ends by an exception only when the handler of a due
    entry raises; that entry and all the entries after it are then left as
    they were, still to be processed. When no handler raises, the sweep is
    the one of [process_scheduled_posts]. In every case the sweep keeps the
    number of entries and does not touch the slot catalog. *)
Theorem sweep_settles_due_posts (self : IntelligentScheduler) (now : datetime)
    (outcome : ScheduleEntry -> attempt) :
  let after := fst (process_scheduled_posts_exc self now outcome) in
  let raised := snd (process_scheduled_posts_exc self now outcome) in
  (raised = false ->
   (_is_sleep_time self now = false ->
    forall post, In post (scheduled_posts after) ->
      status post = "pending" -> now < scheduled_time post)
   /\ forall outcome', process_scheduled_posts_exc after now outcome' = (after, false))
  /\ (raised = true ->
      exists before before' post rest,
        scheduled_posts self = (before ++ post :: rest)%list
        /\ scheduled_posts after = (before' ++ post :: rest)%list
        /\ List.length before' = List.length before
        /\ status post = "pending" /\ scheduled_time post <= now
        /\ _is_sleep_time self now = false
        /\ outcome post = HandlerRaised)
  /\ ((forall post, In post (scheduled_posts self) -> outcome post <> HandlerRaised) ->
      process_scheduled_posts_exc self now outcome
      = (process_scheduled_posts self now
           (fun post => match outcome post with Posted => true | _ => false end),
         false))
  /\ List.length (scheduled_posts after) = List.length (scheduled_posts self)
  /\ optimal_times after = optimal_times self.
Proof.
  unfold process_scheduled_posts_exc. cbv zeta. cbn [fst snd].
  split; [|split; [|split; [|split]]].
  - intros Hdone. split.
    + intros Hawake post Hin Hpending. cbn [scheduled_posts set_scheduled_posts] in Hin.
      pose proof (sweep_loop_settles self now outcome _ Hdone post Hin) as Hsettled.
      destruct (Z.lt_ge_cases now (scheduled_time post)) as [Hlater | Hdue];
        [exact Hlater|].
      assert (Hd : is_due self now post = true)
        by (apply is_due_iff; repeat split; [exact Hpending | lia | exact Hawake]).
      congruence.
    + intros outcome'. cbn [scheduled_posts set_scheduled_posts].
      rewrite sweep_loop_posts, set_scheduled_posts_twice.
      rewrite sweep_loop_nothing_due; [reflexivity|].
      apply (sweep_loop_settles self now outcome _ Hdone).
  - intros Hraised. cbn [scheduled_posts set_scheduled_posts].
    destruct (sweep_loop_raised self now outcome _ Hraised)
      as (before & before' & post & rest & Hposts & Hafter & Hlen & Hdue & Hout).
    apply is_due_iff in Hdue as (Hpending & Htime & Hawake).
    exists before, before', post, rest. repeat split; assumption.
  - intros Hhandled. rewrite (sweep_loop_handled self now outcome _ Hhandled).
    reflexivity.
  - cbn [scheduled_posts set_scheduled_posts]. apply sweep_loop_length.
  - reflexivity.
Qed.

(** A sweep at 07:30 over two due entries, outside the window: the first
    fails and is marked so; the handler of the second raises, the sweep
    ends by that exception and the second entry is still pending. *)
Example sweep_stopped_by_handler :
  let outcome := fun post => if String.eqb (content_id post) "a" then Failed
                             else HandlerRaised in
  map status (scheduled_posts (fst (process_scheduled_posts_exc two_due_posts
                                      tuesday_0730 outcome)))
  = ["failed"; "pending"]
  /\ snd (process_scheduled_posts_exc two_due_posts tuesday_0730 outcome) = true.
Proof. vm_compute. split; reflexivity. Qed.

Lemma filter_map_unchanged {A : Type} (p : A -> bool) (f : A -> A) (l : list A) :
  (forall x, In x l -> f x = x \/ (p x = false /\ p (f x) = false)) ->
  filter p (map f l) = filter p l.
Proof.
  induction l as [|x l IH]; intros Hall; [reflexivity|].
  cbn [map filter]. rewrite IH by (intros y Hy; apply Hall; right; exact Hy).
  destruct (Hall x (or_introl eq_refl)) as [-> | [-> ->]]; reflexivity.
Qed.

(** X11. A sweep made at [now] does not change what the projection of
    upcoming posts returns at [now] or at any later instant: the entries a
    sweep marks are due, the entries the projection lists are not. *)
Theorem sweep_keeps_upcoming_posts (self : IntelligentScheduler)
    (now now' : datetime) (publish : ScheduleEntry -> bool) :
  now <= now' ->
  fst (get_upcoming_posts (process_scheduled_posts self now publish) now')
  = fst (get_upcoming_posts self now').
Proof.
  intros Hlater. unfold get_upcoming_posts. cbv zeta.
  cbn [fst process_scheduled_posts set_scheduled_posts scheduled_posts].
  fold (is_upcoming now'). rewrite filter_map_unchanged; [reflexivity|].
  intros post _.
  destruct (process_post_cases self now publish post)
    as [[Hsame _] | (_ & Hdue & _ & Hdone)]; [left; exact Hsame|].
  right. rewrite Hdone. unfold is_upcoming. cbn [scheduled_time set_status].
  replace (now' <? scheduled_time post) with false by (symmetry; apply Z.ltb_ge; lia).
  split; reflexivity.
Qed.

Lemma sweep_keeps_upcoming_posts_witness :
  fst (get_upcoming_posts (process_scheduled_posts init tuesday_0730 (fun _ => true))
         tuesday_0800)
  = fst (get_upcoming_posts init tuesday_0800).
Proof.
  apply (sweep_keeps_upcoming_posts init tuesday_0730 tuesday_0800 (fun _ => true)).
  vm_compute. congruence.
Defined.

(** ** Repeated engagement updates *)

Lemma matched_update_keeps_match (self : IntelligentScheduler) (target : string)
    (post_time : datetime) (score : float) :
  (exists slot, In slot (optimal_times self) /\ matches target post_time slot) ->
  (exists slot, In slot (optimal_times (update_engagement_data self target post_time score))
                /\ matches target post_time slot)
  /\ List.length (optimal_times (update_engagement_data self target post_time score))
     = List.length (optimal_times self).
Proof.
  intros (slot & Hin & Hm). split.
  - apply In_nth_error in Hin as (i & Hi).
    destruct (update_engagement_data_slots self target post_time score i slot Hi)
      as (slot' & Hslot' & Hh & _ & Hd & Hp).
    exists slot'. split; [eapply nth_error_In; exact Hslot'|].
    unfold matches in *. rewrite Hh, Hd, Hp. exact Hm.
  - unfold update_engagement_data. cbv zeta.
    destruct (find_existing_slot target (dt_weekday post_time) (dt_hour post_time)
                (optimal_times self)) as [i|] eqn:Hfind.
    + cbn [set_optimal_times optimal_times]. apply update_slot_length.
    + apply find_existing_slot_None in Hfind. rewrite Forall_forall in Hfind.
      apply slot_matches_iff in Hm. rewrite (Hfind slot Hin) in Hm. discriminate.
Qed.

Lemma update_grows_with_match (self : IntelligentScheduler) (target : string)
    (post_time : datetime) (score : float) :
  optimal_times (update_engagement_data self target post_time score) = optimal_times self
  \/ List.length (optimal_times (update_engagement_data self target post_time score))
     = List.length (optimal_times self)
  \/ (List.length (optimal_times (update_engagement_data self target post_time score))
      = S (List.length (optimal_times self))
      /\ exists slot,
           In slot (optimal_times (update_engagement_data self target post_time score))
           /\ matches target post_time slot).
Proof.
  unfold update_engagement_data. cbv zeta.
  destruct (find_existing_slot target (dt_weekday post_time) (dt_hour post_time)
              (optimal_times self)) as [i|] eqn:Hfind.
  - right. left. cbn [set_optimal_times optimal_times]. apply update_slot_length.
  - destruct (0.75 <? score)%float; [|left; reflexivity].
    right. right. cbn [set_optimal_times optimal_times]. split.
    + rewrite length_app. cbn [List.length]. lia.
    + exists (mkOptimalTimeSlot (dt_hour post_time) 0 (dt_weekday post_time) score target).
      split; [apply in_or_app; right; left; reflexivity|].
      unfold matches. cbn [platform day_of_week hour].
      rewrite Z.sub_diag. cbn. repeat split; lia.
Qed.

Lemma update_many_matched (scores : list float) :
  forall (self : IntelligentScheduler) (target : string) (post_time : datetime),
    (exists slot, In slot (optimal_times self) /\ matches target post_time slot) ->
    List.length (optimal_times (update_many self target post_time scores))
    = List.length (optimal_times self).
Proof.
  induction scores as [|score scores IH]; intros self target post_time Hm; [reflexivity|].
  cbn [update_many fold_left].
  fold (update_many (update_engagement_data self target post_time score)
          target post_time scores).
  destruct (matched_update_keeps_match self target post_time score Hm) as (Hm' & Hlen).
  rewrite IH by exact Hm'. exact Hlen.
Qed.

(** X12. However many engagement updates arrive for one platform and one
    post time, whatever their scores, the catalog grows by at most one
    slot; it does not grow at all when a slot already matches. *)
Theorem repeated_updates_append_once (self : IntelligentScheduler) (target : string)
    (post_time : datetime) (scores : list float) :
  (List.length (optimal_times (update_many self target post_time scores))
   <= S (List.length (optimal_times self)))%nat
  /\ ((exists slot, In slot (optimal_times self) /\ matches target post_time slot) ->
      List.length (optimal_times (update_many self target post_time scores))
      = List.length (optimal_times self)).
Proof.
  split; [|apply update_many_matched].
  revert self. induction scores as [|score scores IH]; intros self; [cbn; lia|].
  cbn [update_many fold_left].
  fold (update_many (update_engagement_data self target post_time score)
          target post_time scores).
  destruct (update_grows_with_match self target post_time score)
    as [Hsame | [Hlen | (Hlen & Hm)]].
  - specialize (IH (update_engagement_data self target post_time score)).
    rewrite Hsame in IH. exact IH.
  - specialize (IH (update_engagement_data self target post_time score)).
    rewrite Hlen in IH. exact IH.
  - rewrite (update_many_matched scores _ target post_time Hm). lia.
Qed.

Lemma repeated_updates_append_once_witness :
  List.length (optimal_times (update_many init "discord" (mk_datetime 738892 16 45 0 0)
                                [0.9; 0.1; 0.95]%float))
  = List.length (optimal_times init).
Proof.
  apply (proj2 (repeated_updates_append_once init "discord"
                  (mk_datetime 738892 16 45 0 0) [0.9; 0.1; 0.95]%float)).
  exists (mkOptimalTimeSlot 15 0 6 0.80 "discord"). split.
  - simpl. tauto.
  - vm_compute. repeat split; congruence.
Defined.

Lemma filter_other_platforms (target : string) (slots : list OptimalTimeSlot) :
  (forall slot, In slot slots -> platform slot <> target) ->
  filter (fun slot => String.eqb (platform slot) target) slots = [].
Proof.
  induction slots as [|slot rest IH]; intros Hnone; [reflexivity|].
  cbn [filter].
  destruct (String.eqb_spec (platform slot) target) as [Heq | _].
  - destruct (Hnone slot (or_introl eq_refl) Heq).
  - apply IH. intros s Hs. apply Hnone. right. exact Hs.
Qed.

(** X13. The catalog learns a platform: after an engagement update with a
    score above 0.75 for a platform that had no slot, posted at an hour
    outside the sleep window, [_find_next_optimal_slot] for that platform
    no longer falls back to the walk from now; it returns, whatever the
    fuel, the next occurrence of the weekday and hour of that post, at
    minute 0, strictly after now. *)
Theorem learned_slot_is_used (self : IntelligentScheduler) (target : string)
    (post_time : datetime) (score : float) (now : datetime) :
  (forall slot, In slot (optimal_times self) -> platform slot <> target) ->
  (0.75 <? score)%float = true ->
  ~ (sleep_start self <= dt_hour post_time < sleep_end self) ->
  exists occ,
    (forall fuel,
       _find_next_optimal_slot fuel
         (update_engagement_data self target post_time score) target now = Ok occ)
    /\ now < occ
    /\ dt_weekday occ = dt_weekday post_time
    /\ dt_hour occ = dt_hour post_time
    /\ dt_minute occ = 0
    /\ dt_second occ = 0
    /\ dt_date now < dt_date occ <= dt_date now + 7.
Proof.
  intros Hnone Hhigh Hout.
  set (new_slot := mkOptimalTimeSlot (dt_hour post_time) 0 (dt_weekday post_time)
                     score target).
  assert (Hupdate : update_engagement_data self target post_time score
                    = set_optimal_times self (optimal_times self ++ [new_slot])).
  { unfold update_engagement_data. cbv zeta.
    rewrite no_match_find_None, Hhigh; [reflexivity|].
    intros slot Hin [Hp _]. exact (Hnone slot Hin Hp). }
  assert (Hvalid : valid_slot new_slot).
  { unfold valid_slot. cbn [hour minute day_of_week new_slot].
    pose proof (dt_hour_range post_time). pose proof (dt_weekday_range post_time). lia. }
  destruct (next_occurrence_fields new_slot now Hvalid)
    as (occ & Hocc & Hafter & Hwd & Hh & Hm & Hs & Hdays).
  cbn [hour minute day_of_week new_slot] in Hwd, Hh, Hm.
  exists occ. split; [|repeat split; try assumption; lia].
  intros fuel. rewrite Hupdate. unfold _find_next_optimal_slot. cbv zeta.
  cbn [optimal_times set_optimal_times].
  rewrite filter_app, (filter_other_platforms target _ Hnone).
  cbn [filter app platform new_slot]. rewrite String.eqb_refl.
  cbn [find_loop]. fold new_slot. rewrite Hocc. cbn [bind].
  replace (_is_sleep_time (set_optimal_times self (optimal_times self ++ [new_slot])) occ)
    with false.
  - reflexivity.
  - symmetry. apply not_true_is_false. intros Hsleep.
    apply is_sleep_time_iff in Hsleep.
    cbn [sleep_start sleep_end set_optimal_times] in Hsleep. rewrite Hh in Hsleep.
    exact (Hout Hsleep).
Qed.

Lemma learned_slot_is_used_witness :
  exists occ,
    (forall fuel,
       _find_next_optimal_slot fuel
         (update_engagement_data init "twitter" tuesday_0900 0.76) "twitter"
         tuesday_0800 = Ok occ)
    /\ tuesday_0800 < occ
    /\ dt_weekday occ = dt_weekday tuesday_0900
    /\ dt_hour occ = dt_hour tuesday_0900
    /\ dt_minute occ = 0
    /\ dt_second occ = 0
    /\ dt_date tuesday_0800 < dt_date occ <= dt_date tuesday_0800 + 7.
Proof.
  apply (learned_slot_is_used init "twitter" tuesday_0900 0.76 tuesday_0800).
  - intros slot Hin Hplatform. simpl in Hin.
    repeat (destruct Hin as [<- | Hin]; [discriminate Hplatform|]).
    destruct Hin.
  - vm_compute. reflexivity.
  - vm_compute. intros [_ H]. discriminate H.
Defined.

(** ** The sleep schedule *)



(** Asked at 02:15 on Tuesday 2024-01-02, inside the window, the default
    scheduler announces the sleep of Wednesday 00:00 and the wake of
    Wednesday 06:00. *)
Example sleep_schedule_inside_window :
  exists r,
    get_sleep_schedule init tuesday_0215 = Ok r
    /\ currently_sleeping r = true
    /\ next_sleep_time r = "2024-01-03T00:00:00+00:00"
    /\ next_wake_time r = "2024-01-03T06:00:00+00:00"
    /\ ss_sleep_start r = "00:00" /\ ss_sleep_end r = "06:00"
    /\ active_hours r = "06:00 - 00:00".
Proof. eexists. split; [vm_compute; reflexivity|]. vm_compute. repeat split. Qed.
